(** * Plant Keeper: the server's data access layer (src/server.js)

    A shallow embedding of the Express handlers of [server.js] over an
    explicit model of the SQLite tables, and the properties of the
    session, ownership and event-ledger code.

    Conventions of the model.
    - A table is the list of its rows in rowid order; AUTOINCREMENT keys are
      drawn from a per-table counter that only grows.
    - A time value is the number of milliseconds since the epoch, as in
      [Date.prototype.getTime].  The [at], [last_watered] and
      [last_repotted] columns hold the text [toISOString] gives for a time
      value; the model keeps the time value itself, and [new Date(text)] on
      such a column is the identity.
    - A handler that throws is answered 500 by Express, and what it wrote
      before the throw stays written.
    - What the handlers read from outside the program (the clock, the random
      session token, the salted hash) is an explicit input of each request;
      what the JavaScript runtime and the libraries compute (the server's
      time zone, [Date]'s parser on free-form text, [Number] on a string,
      [bcrypt.compare]) is a parameter of the model, the [runtime]. *)

From Stdlib Require Import ZArith List String Ascii Bool Lia.
From Stdlib Require Import Permutation Sorted.
Import ListNotations.
Open Scope string_scope.
Open Scope list_scope.
Open Scope Z_scope.

(* ===================================================================== *)
(** ** JavaScript values *)
(* ===================================================================== *)

(** Number values: the integers and NaN.  Day counts, row ids and time
    values are integers; fractional values and the infinities are outside
    the model. *)
Inductive number : Type :=
| NaN
| Num (z : Z).

(** The JSON scalars an interval field of a request body can carry, and
    what better-sqlite3 hands back for an INTEGER column. *)
Inductive jsval : Type :=
| JUndefined
| JNull
| JBool (b : bool)
| JNum (n : number)
| JStr (s : string).

Definition string_is_empty (s : string) : bool :=
  match s with
  | EmptyString => true
  | String _ _ => false
  end.

(** ToBoolean: the truthiness behind [!x] and [x || y]. *)
Definition ToBoolean (v : jsval) : bool :=
  match v with
  | JUndefined => false
  | JNull => false
  | JBool b => b
  | JNum NaN => false
  | JNum (Num z) => negb (z =? 0)
  | JStr s => negb (string_is_empty s)
  end.

(** [a || b] *)
Definition js_or (a b : jsval) : jsval :=
  if ToBoolean a then a else b.

(** [a ?? b] *)
Definition js_nullish (a b : jsval) : jsval :=
  match a with
  | JUndefined => b
  | JNull => b
  | _ => a
  end.

(** [a ?? b] on an optional text attribute: absent or null gives [b]. *)
Definition text_nullish (a : option string) (b : option string) : option string :=
  match a with
  | None => b
  | Some s => Some s
  end.

(** Truthiness of an optional text attribute ([undefined], [null] and the
    empty string are falsy). *)
Definition text_truthy (a : option string) : bool :=
  match a with
  | None => false
  | Some s => negb (string_is_empty s)
  end.

(** [a || ''] on an optional text attribute. *)
Definition text_or_empty (a : option string) : string :=
  match a with
  | None => ""
  | Some s => s
  end.

(* ===================================================================== *)
(** ** The runtime *)
(* ===================================================================== *)

Record runtime : Type := mkRuntime {
  (** offset of the server's local time from UTC, in milliseconds, at a
      local time value (ECMAScript's LocalTZA) *)
  LocalTZA : Z -> Z;
  (** [new Date(s).getTime()] on text that is not a bare calendar date;
      [None] is NaN (an Invalid Date) *)
  Date_parse : string -> option Z;
  (** [Number(s)] on a string *)
  StringToNumber : string -> number;
  (** [bcrypt.compare(password, hash)] *)
  bcrypt_compare : string -> string -> bool
}.

(** [Number(v)] *)
Definition ToNumber (rt : runtime) (v : jsval) : number :=
  match v with
  | JUndefined => NaN
  | JNull => Num 0
  | JBool true => Num 1
  | JBool false => Num 0
  | JNum n => n
  | JStr s => StringToNumber rt s
  end.

(** What SQLite stores when a JavaScript number is bound to an INTEGER
    column: NaN is stored as NULL. *)
Definition bind_number (n : number) : option Z :=
  match n with
  | NaN => None
  | Num z => Some z
  end.

(** What better-sqlite3 returns for an INTEGER column. *)
Definition column_value (c : option Z) : jsval :=
  match c with
  | None => JNull
  | Some z => JNum (Num z)
  end.

(** Exceptions the handlers can meet. *)
Inductive exn : Type :=
| RangeError      (* Invalid time value *)
| SqliteError.    (* UNIQUE constraint failed *)

Inductive completion (A : Type) : Type :=
| Normal (a : A)
| Throw (e : exn).
Arguments Normal {A} a.
Arguments Throw {A} e.

(* ===================================================================== *)
(** ** Dates *)
(* ===================================================================== *)

Definition is_digit (c : ascii) : bool :=
  let n := Z.of_nat (nat_of_ascii c) in
  (48 <=? n) && (n <=? 57).

Definition digit_value (c : ascii) : Z := Z.of_nat (nat_of_ascii c) - 48.

(** One position of a pattern: [\d] or a literal character. *)
Inductive atom : Type :=
| Digit
| Lit (c : ascii).

Definition atom_matches (a : atom) (c : ascii) : bool :=
  match a with
  | Digit => is_digit c
  | Lit l => Ascii.eqb l c
  end.

(** An anchored match [^...$] of a pattern of single-character atoms. *)
Fixpoint anchored_match (p : list atom) (s : string) : bool :=
  match p, s with
  | [], EmptyString => true
  | a :: p', String c s' => atom_matches a c && anchored_match p' s'
  | _, _ => false
  end.

(** [/^\d{4}-\d{2}-\d{2}$/] *)
Definition date_only_pattern : list atom :=
  [Digit; Digit; Digit; Digit; Lit "-"; Digit; Digit; Lit "-"; Digit; Digit].

(** [YYYY-MM-DDTHH:mm:ss], the shape of a date-only string followed by
    ['T00:00:00']. *)
Definition date_time_pattern : list atom :=
  date_only_pattern ++
  [Lit "T"; Digit; Digit; Lit ":"; Digit; Digit; Lit ":"; Digit; Digit].

(** The decimal value of a string of digits. *)
Fixpoint digits_value (acc : Z) (s : string) : Z :=
  match s with
  | EmptyString => acc
  | String c s' => digits_value (10 * acc + digit_value c) s'
  end.

Definition field (s : string) (start len : nat) : Z :=
  digits_value 0 (substring start len s).

(** ECMAScript's day arithmetic. *)
Definition msPerDay : Z := 86400000.

Definition DayFromYear (y : Z) : Z :=
  365 * (y - 1970) + (y - 1969) / 4 - (y - 1901) / 100 + (y - 1601) / 400.

Definition InLeapYear (y : Z) : bool :=
  ((y mod 4 =? 0) && negb (y mod 100 =? 0)) || (y mod 400 =? 0).

(** Day number within the year of the first day of month [m] (0-based). *)
Definition month_start (m : Z) (leap : bool) : Z :=
  let l := if leap then 1 else 0 in
  match m with
  | 0 => 0
  | 1 => 31
  | 2 => 59 + l
  | 3 => 90 + l
  | 4 => 120 + l
  | 5 => 151 + l
  | 6 => 181 + l
  | 7 => 212 + l
  | 8 => 243 + l
  | 9 => 273 + l
  | 10 => 304 + l
  | _ => 334 + l
  end.

(** MakeDay(year, month, date) for a month in 0..11. *)
Definition MakeDay (year month date : Z) : Z :=
  DayFromYear year + month_start month (InLeapYear year) + date - 1.

(** MakeTime(hour, min, sec, 0) *)
Definition MakeTime (hour min sec : Z) : Z :=
  hour * 3600000 + min * 60000 + sec * 1000.

(** MakeDate(day, time) *)
Definition MakeDate (day time : Z) : Z := day * msPerDay + time.

(** TimeClip: a time value beyond 8.64e15 ms is NaN. *)
Definition TimeClip (t : Z) : option Z :=
  if Z.abs t <=? 8640000000000000 then Some t else None.

(** [new Date(s).getTime()] for [s] of the shape [YYYY-MM-DDTHH:mm:ss]: a
    date-time without offset is local time.  As in V8 (the engine under
    Node), the month must be 01..12, the day 01..31, the hour 00..23 (or
    24:00:00), minute and second 00..59; a field out of these bounds makes
    the date invalid, and a day past the end of its month rolls over into
    the next month. *)
Definition parse_date_time_local (rt : runtime) (s : string) : option Z :=
  if anchored_match date_time_pattern s then
    let year := field s 0 4 in
    let month := field s 5 2 in
    let day := field s 8 2 in
    let hour := field s 11 2 in
    let min := field s 14 2 in
    let sec := field s 17 2 in
    if (1 <=? month) && (month <=? 12) && (1 <=? day) && (day <=? 31)
       && ((hour <=? 23) || ((hour =? 24) && (min =? 0) && (sec =? 0)))
       && (min <=? 59) && (sec <=? 59)
    then
      let t := MakeDate (MakeDay year (month - 1) day) (MakeTime hour min sec) in
      TimeClip (t - LocalTZA rt t)
    else None
  else None.

(** [d.toISOString()]: throws a RangeError on an Invalid Date. *)
Definition toISOString (d : option Z) : completion Z :=
  match d with
  | None => Throw RangeError
  | Some t => Normal t
  end.

(** [normalizeDate(dateStr)], with the clock reading [now] that
    [new Date()] would give. *)
Definition normalizeDate (rt : runtime) (now : Z) (dateStr : option string)
  : completion Z :=
  match dateStr with
  | None => Normal now
  | Some s =>
      if string_is_empty s then Normal now
      else if anchored_match date_only_pattern s then
        toISOString (parse_date_time_local rt (s ++ "T00:00:00")%string)
      else
        match Date_parse rt s with
        | None => Normal now
        | Some t => toISOString (Some t)
        end
  end.

(* ===================================================================== *)
(** ** The tables *)
(* ===================================================================== *)

(** [users(id, email UNIQUE, password_hash, created_at)] *)
Record user : Type := mkUser {
  u_id : Z;
  u_email : string;
  u_password_hash : string;
  u_created_at : Z
}.

(** [sessions(id PRIMARY KEY, user_id, created_at)] *)
Record session : Type := mkSession {
  s_id : string;
  s_user_id : Z;
  s_created_at : Z
}.

(** [plants(...)], with the [user_id] column the migration adds; the owner
    is NULL for a row that predates the migration. *)
Record plant : Type := mkPlant {
  p_id : Z;
  p_name : string;
  p_species : option string;
  p_location : option string;
  p_water_interval_days : option Z;
  p_repot_interval_days : option Z;
  p_notes : option string;
  p_last_watered : option Z;
  p_last_repotted : option Z;
  p_user_id : option Z
}.

(** A row of [waterings] or of [repottings]: [(id, plant_id, at, user_id)]. *)
Record event : Type := mkEvent {
  e_id : Z;
  e_plant_id : Z;
  e_at : Z;
  e_user_id : option Z
}.

(** The database: the five tables and the AUTOINCREMENT counters (the
    largest rowid each table has ever used). *)
Record db : Type := mkDb {
  users : list user;
  sessions : list session;
  plants : list plant;
  waterings : list event;
  repottings : list event;
  seq_users : Z;
  seq_plants : Z;
  seq_waterings : Z;
  seq_repottings : Z
}.

Definition empty_db : db := mkDb [] [] [] [] [] 0 0 0 0.

Definition set_users (d : db) (us : list user) (n : Z) : db :=
  mkDb us (sessions d) (plants d) (waterings d) (repottings d)
       n (seq_plants d) (seq_waterings d) (seq_repottings d).

Definition set_sessions (d : db) (ss : list session) : db :=
  mkDb (users d) ss (plants d) (waterings d) (repottings d)
       (seq_users d) (seq_plants d) (seq_waterings d) (seq_repottings d).

Definition set_plants (d : db) (ps : list plant) (n : Z) : db :=
  mkDb (users d) (sessions d) ps (waterings d) (repottings d)
       (seq_users d) n (seq_waterings d) (seq_repottings d).

Definition set_waterings (d : db) (es : list event) (n : Z) : db :=
  mkDb (users d) (sessions d) (plants d) es (repottings d)
       (seq_users d) (seq_plants d) n (seq_repottings d).

Definition set_repottings (d : db) (es : list event) (n : Z) : db :=
  mkDb (users d) (sessions d) (plants d) (waterings d) es
       (seq_users d) (seq_plants d) (seq_waterings d) n.

(** The two kinds of care event; [history] labels its rows with them. *)
Inductive kind : Type :=
| watered
| repotted.

(* ===================================================================== *)
(** ** Sorting *)
(* ===================================================================== *)

(** [Array.prototype.sort(cmp)]: a stable sort; [a] stays ahead of [b]
    unless [cmp a b > 0]. *)
Fixpoint sort_insert {A : Type} (cmp : A -> A -> Z) (x : A) (l : list A) : list A :=
  match l with
  | [] => [x]
  | y :: l' => if cmp x y <=? 0 then x :: y :: l' else y :: sort_insert cmp x l'
  end.

Fixpoint js_sort {A : Type} (cmp : A -> A -> Z) (l : list A) : list A :=
  match l with
  | [] => []
  | x :: l' => sort_insert cmp x (js_sort cmp l')
  end.

(** [ORDER BY key DESC] (rows with equal keys are left in rowid order). *)
Definition order_by_desc {A : Type} (key : A -> Z) (l : list A) : list A :=
  js_sort (fun a b => key b - key a) l.

(* ===================================================================== *)
(** ** Requests and responses *)
(* ===================================================================== *)

(** [req.body] of the register and login routes. *)
Record credentials : Type := mkCredentials {
  email : option string;
  password : option string
}.

(** [req.body] of the plant routes.  The text attributes are JSON strings
    or are absent (or null); an interval field is any JSON scalar. *)
Record attrs : Type := mkAttrs {
  name : option string;
  species : option string;
  location : option string;
  water_interval_days : jsval;
  repot_interval_days : jsval;
  notes : option string
}.

(** The routes, with [Number(req.params.id)] and [req.body] already taken. *)
Inductive route : Type :=
| POST_register (c : credentials)
| POST_login (c : credentials)
| POST_logout
| GET_me
| GET_plants
| POST_plants (a : attrs)
| PUT_plant (id : number) (a : attrs)
| DELETE_plant (id : number)
| POST_water (id : number) (date : option string)
| POST_repot (id : number) (date : option string)
| GET_history (id : number).

(** A request: the value of the signed session cookie, if the request
    carries a valid one, and the route. *)
Record request : Type := mkRequest {
  signedCookie : option string;
  target : route
}.

(** What a request reads from outside the program. *)
Record env : Type := mkEnv {
  now : Z;                 (* the clock, [new Date()] and [datetime('now')] *)
  randomBytes : string;    (* [crypto.randomBytes(24).toString('hex')] *)
  bcrypt_hash : string     (* [await bcrypt.hash(password, 11)] *)
}.

(** The JSON a handler answers with. *)
Inductive payload : Type :=
| Ok                                   (* { ok: true } *)
| OkAt (at_ : Z)                       (* { ok: true, at } *)
| Error (msg : string)                 (* { error: msg } *)
| Created (id : Z)                     (* { id } *)
| Me (id : Z) (email : string)         (* { id, email } *)
| Plants (rows : list plant)
| History (rows : list (kind * Z))     (* [{ type, at }, ...] *)
| Uncaught (e : exn).                  (* the handler threw; Express answers 500 *)

Record response : Type := mkResponse {
  status : Z;
  body : payload;
  set_cookie : option (string * Z);    (* [res.cookie]: value and maxAge *)
  clear_cookie : bool                  (* [res.clearCookie] *)
}.

(** The library calls a handler awaits. *)
Inductive call : Type :=
| BcryptHash (pw : string) (cost : Z)
| BcryptCompare (pw : string) (hash : string).

Record outcome : Type := mkOutcome {
  resp : response;
  state : db;
  awaited : list call
}.

Definition json (code : Z) (b : payload) : response :=
  mkResponse code b None false.

Definition reply (r : response) (d : db) : outcome := mkOutcome r d [].

Definition unauthorized : response := json 401 (Error "unauthorized").
Definition not_found : response := json 404 (Error "not found").
Definition invalid_credentials : response := json 401 (Error "invalid credentials").

(* ===================================================================== *)
(** ** Auth helpers *)
(* ===================================================================== *)

Definition sessionTTLHours : Z := 24 * 30.

(** The [maxAge] both auth routes give the session cookie. *)
Definition cookie_maxAge : Z := sessionTTLHours * 3600 * 1000.

(** [createSession(userId)]: the INSERT throws when the id is already a
    key of [sessions]. *)
Definition createSession (d : db) (e : env) (userId : Z) : completion (string * db) :=
  let id := randomBytes e in
  if existsb (fun s => String.eqb (s_id s) id) (sessions d)
  then Throw SqliteError
  else Normal (id, set_sessions d (sessions d ++ [mkSession id userId (now e)])).

(** [getSession(req)]: the row [(s.id, u.id, u.email)] of the join. *)
Definition getSession (d : db) (req : request) : option (string * Z * string) :=
  match signedCookie req with
  | None => None
  | Some sid =>
      if string_is_empty sid then None
      else
        match find (fun s => String.eqb (s_id s) sid) (sessions d) with
        | None => None
        | Some s =>
            match find (fun u => u_id u =? s_user_id s) (users d) with
            | None => None
            | Some u => Some (s_id s, u_id u, u_email u)
            end
        end
  end.

(** [destroySession(req, res)]: the database part. *)
Definition destroySession (d : db) (req : request) : db :=
  match signedCookie req with
  | None => d
  | Some sid =>
      if string_is_empty sid then d
      else set_sessions d
             (filter (fun s => negb (String.eqb (s_id s) sid)) (sessions d))
  end.

(** [req.user] *)
Record identity : Type := mkIdentity {
  user_id : Z;
  user_email : string
}.

(** [requireAuth]: answers 401 or runs the handler with [req.user] set. *)
Definition requireAuth (d : db) (req : request) (next : identity -> outcome) : outcome :=
  match getSession d req with
  | None => reply unauthorized d
  | Some (_, uid, mail) => next (mkIdentity uid mail)
  end.

(* ===================================================================== *)
(** ** Auth routes *)
(* ===================================================================== *)

Definition session_cookie (sid : string) : response :=
  mkResponse 200 Ok (Some (sid, cookie_maxAge)) false.

(** [POST /api/register].  Both INSERTs sit in the [try]: a UNIQUE failure
    of either one is answered 409, and the user row of a first INSERT that
    went through stays. *)
Definition post_register (d : db) (e : env) (c : credentials) : outcome :=
  if negb (text_truthy (email c)) || negb (text_truthy (password c)) then
    reply (json 400 (Error "email and password required")) d
  else
    let mail := text_or_empty (email c) in
    let hashing := [BcryptHash (text_or_empty (password c)) 11] in
    if existsb (fun u => String.eqb (u_email u) mail) (users d) then
      mkOutcome (json 409 (Error "email already exists")) d hashing
    else
      let uid := seq_users d + 1 in
      let d1 := set_users d (users d ++ [mkUser uid mail (bcrypt_hash e) (now e)]) uid in
      match createSession d1 e uid with
      | Throw _ => mkOutcome (json 409 (Error "email already exists")) d1 hashing
      | Normal (sid, d2) => mkOutcome (session_cookie sid) d2 hashing
      end.

(** [POST /api/login].  The handler is async and has no [try]: an INSERT
    that throws in [createSession] leaves the request without the
    handler's answer, which the model records as a 500. *)
Definition post_login (rt : runtime) (d : db) (e : env) (c : credentials) : outcome :=
  match find (fun u => String.eqb (u_email u) (text_or_empty (email c))) (users d) with
  | None => reply invalid_credentials d
  | Some u =>
      let pw := text_or_empty (password c) in
      let comparing := [BcryptCompare pw (u_password_hash u)] in
      if negb (bcrypt_compare rt pw (u_password_hash u)) then
        mkOutcome invalid_credentials d comparing
      else
        match createSession d e (u_id u) with
        | Throw ex => mkOutcome (json 500 (Uncaught ex)) d comparing
        | Normal (sid, d1) => mkOutcome (session_cookie sid) d1 comparing
        end
  end.

(** [POST /api/logout] *)
Definition post_logout (d : db) (req : request) : outcome :=
  reply (mkResponse 200 Ok None true) (destroySession d req).

(** [GET /api/me] *)
Definition get_me (d : db) (req : request) : outcome :=
  match getSession d req with
  | None => reply unauthorized d
  | Some (_, uid, mail) => reply (json 200 (Me uid mail)) d
  end.

(* ===================================================================== *)
(** ** Plant routes *)
(* ===================================================================== *)

(** [user_id IS NULL OR user_id = ?] *)
Definition visible_to (uid : Z) (p : plant) : bool :=
  match p_user_id p with
  | None => true
  | Some o => o =? uid
  end.

(** [SELECT ... FROM plants WHERE id = ? AND (user_id IS NULL OR user_id = ?)],
    first row.  A NaN id is bound as NULL and matches no row. *)
Definition select_plant (d : db) (id : number) (uid : Z) : option plant :=
  match id with
  | NaN => None
  | Num z => find (fun p => (p_id p =? z) && visible_to uid p) (plants d)
  end.

(** [GET /api/plants] *)
Definition get_plants (d : db) (u : identity) : outcome :=
  reply (json 200 (Plants (order_by_desc p_id
                             (filter (visible_to (user_id u)) (plants d))))) d.

(** [POST /api/plants] *)
Definition post_plants (rt : runtime) (d : db) (u : identity) (a : attrs) : outcome :=
  if negb (text_truthy (name a)) then
    reply (json 400 (Error "name required")) d
  else
    let id := seq_plants d + 1 in
    let row :=
      mkPlant id
              (text_or_empty (name a))
              (species a)
              (location a)
              (bind_number (ToNumber rt (js_or (water_interval_days a) (JNum (Num 7)))))
              (bind_number (ToNumber rt (js_or (repot_interval_days a) (JNum (Num 365)))))
              (notes a)
              None
              None
              (Some (user_id u)) in
    reply (json 200 (Created id)) (set_plants d (plants d ++ [row]) id).

(** The row [UPDATE plants SET name=?, ... WHERE id=?] writes over [q],
    its values computed from the request and from the selected row [p]. *)
Definition updated_row (rt : runtime) (a : attrs) (p q : plant) : plant :=
  mkPlant (p_id q)
          (match name a with None => p_name p | Some s => s end)
          (text_nullish (species a) (p_species p))
          (text_nullish (location a) (p_location p))
          (bind_number (ToNumber rt (js_nullish (water_interval_days a)
                                       (column_value (p_water_interval_days p)))))
          (bind_number (ToNumber rt (js_nullish (repot_interval_days a)
                                       (column_value (p_repot_interval_days p)))))
          (text_nullish (notes a) (p_notes p))
          (p_last_watered q)
          (p_last_repotted q)
          (p_user_id q).

(** [UPDATE plants SET ... WHERE id = ?] *)
Definition update_where_id (z : Z) (f : plant -> plant) (ps : list plant) : list plant :=
  map (fun q => if p_id q =? z then f q else q) ps.

(** [PUT /api/plants/:id] *)
Definition put_plant (rt : runtime) (d : db) (u : identity) (id : number) (a : attrs)
  : outcome :=
  match select_plant d id (user_id u) with
  | None => reply not_found d
  | Some p =>
      reply (json 200 Ok)
            (set_plants d (update_where_id (p_id p) (updated_row rt a p) (plants d))
                        (seq_plants d))
  end.

(** [DELETE FROM waterings WHERE plant_id = ?], and the like. *)
Definition delete_waterings (z : Z) (d : db) : db :=
  set_waterings d (filter (fun e => negb (e_plant_id e =? z)) (waterings d))
                (seq_waterings d).

Definition delete_repottings (z : Z) (d : db) : db :=
  set_repottings d (filter (fun e => negb (e_plant_id e =? z)) (repottings d))
                 (seq_repottings d).

Definition delete_plant_row (z : Z) (d : db) : db :=
  set_plants d (filter (fun p => negb (p_id p =? z)) (plants d)) (seq_plants d).

(** [DELETE /api/plants/:id] *)
Definition delete_plant (d : db) (u : identity) (id : number) : outcome :=
  match select_plant d id (user_id u) with
  | None => reply not_found d
  | Some p =>
      let d1 := delete_waterings (p_id p) d in
      let d2 := delete_repottings (p_id p) d1 in
      let d3 := delete_plant_row (p_id p) d2 in
      reply (json 200 Ok) d3
  end.

(* ===================================================================== *)
(** ** Backdated actions *)
(* ===================================================================== *)

(** [!cached || new Date(at) > new Date(cached)] *)
Definition newer (at_ : Z) (cached : option Z) : bool :=
  match cached with
  | None => true
  | Some c => at_ >? c
  end.

Definition set_last_watered (at_ : Z) (q : plant) : plant :=
  mkPlant (p_id q) (p_name q) (p_species q) (p_location q)
          (p_water_interval_days q) (p_repot_interval_days q) (p_notes q)
          (Some at_) (p_last_repotted q) (p_user_id q).

Definition set_last_repotted (at_ : Z) (q : plant) : plant :=
  mkPlant (p_id q) (p_name q) (p_species q) (p_location q)
          (p_water_interval_days q) (p_repot_interval_days q) (p_notes q)
          (p_last_watered q) (Some at_) (p_user_id q).

(** [POST /api/water/:id] *)
Definition post_water (rt : runtime) (d : db) (e : env) (u : identity)
           (id : number) (date : option string) : outcome :=
  match select_plant d id (user_id u) with
  | None => reply not_found d
  | Some p =>
      match normalizeDate rt (now e) date with
      | Throw ex => reply (json 500 (Uncaught ex)) d
      | Normal at_ =>
          let rowid := seq_waterings d + 1 in
          let d1 := set_waterings d
                      (waterings d ++ [mkEvent rowid (p_id p) at_ (Some (user_id u))])
                      rowid in
          let d2 := if newer at_ (p_last_watered p)
                    then set_plants d1
                           (update_where_id (p_id p) (set_last_watered at_) (plants d1))
                           (seq_plants d1)
                    else d1 in
          reply (json 200 (OkAt at_)) d2
      end
  end.

(** [POST /api/repot/:id] *)
Definition post_repot (rt : runtime) (d : db) (e : env) (u : identity)
           (id : number) (date : option string) : outcome :=
  match select_plant d id (user_id u) with
  | None => reply not_found d
  | Some p =>
      match normalizeDate rt (now e) date with
      | Throw ex => reply (json 500 (Uncaught ex)) d
      | Normal at_ =>
          let rowid := seq_repottings d + 1 in
          let d1 := set_repottings d
                      (repottings d ++ [mkEvent rowid (p_id p) at_ (Some (user_id u))])
                      rowid in
          let d2 := if newer at_ (p_last_repotted p)
                    then set_plants d1
                           (update_where_id (p_id p) (set_last_repotted at_) (plants d1))
                           (seq_plants d1)
                    else d1 in
          reply (json 200 (OkAt at_)) d2
      end
  end.

(** [SELECT 'watered' AS type, at FROM waterings WHERE plant_id = ?
     ORDER BY at DESC], and the same over [repottings].  SQLite orders the
    [at] texts; the model orders the time values.  The order of these rows
    does not reach the response ([history_any_select_order] below). *)
Definition select_events (k : kind) (z : Z) (es : list event) : list (kind * Z) :=
  map (fun e => (k, e_at e))
      (order_by_desc e_at (filter (fun e => e_plant_id e =? z) es)).

(** [(a, b) => new Date(b.at) - new Date(a.at)] *)
Definition by_at_desc (a b : kind * Z) : Z := snd b - snd a.

(** [GET /api/history/:id] *)
Definition get_history (d : db) (u : identity) (id : number) : outcome :=
  match select_plant d id (user_id u) with
  | None => reply not_found d
  | Some p =>
      let w := select_events watered (p_id p) (waterings d) in
      let r := select_events repotted (p_id p) (repottings d) in
      reply (json 200 (History (js_sort by_at_desc (w ++ r)))) d
  end.

(* ===================================================================== *)
(** ** The server *)
(* ===================================================================== *)

Definition handle (rt : runtime) (d : db) (e : env) (req : request) : outcome :=
  match target req with
  | POST_register c => post_register d e c
  | POST_login c => post_login rt d e c
  | POST_logout => post_logout d req
  | GET_me => get_me d req
  | GET_plants => requireAuth d req (fun u => get_plants d u)
  | POST_plants a => requireAuth d req (fun u => post_plants rt d u a)
  | PUT_plant id a => requireAuth d req (fun u => put_plant rt d u id a)
  | DELETE_plant id => requireAuth d req (fun u => delete_plant d u id)
  | POST_water id date => requireAuth d req (fun u => post_water rt d e u id date)
  | POST_repot id date => requireAuth d req (fun u => post_repot rt d e u id date)
  | GET_history id => requireAuth d req (fun u => get_history d u id)
  end.

(** The state after a sequence of requests, each with what it read from
    outside. *)
Fixpoint run (rt : runtime) (d : db) (rs : list (env * request)) : db :=
  match rs with
  | [] => d
  | (e, req) :: rs' => run rt (state (handle rt d e req)) rs'
  end.

(* ===================================================================== *)
(** ** A reference runtime *)
(* ===================================================================== *)

(** The concrete runtime the examples run on: a server whose local time is
    UTC, and stand-ins for the library functions that are exact on the
    inputs the examples give them. *)

Definition is_space (c : ascii) : bool :=
  let n := Z.of_nat (nat_of_ascii c) in
  (n =? 32) || ((9 <=? n) && (n <=? 13)).

Fixpoint all_digits (s : string) : bool :=
  match s with
  | EmptyString => true
  | String c s' => is_digit c && all_digits s'
  end.

(** [Number(s)] on decimal integer literals (an optional sign, then digits),
    on the empty string, and on text that is no numeric literal at all;
    literals with a fraction or an exponent, hexadecimal literals and
    [Infinity] have no value in [number] and are not meant to be given. *)
Definition decimal_StringToNumber (s : string) : number :=
  match s with
  | EmptyString => Num 0
  | String c s' =>
      if Ascii.eqb c "-" then
        if negb (string_is_empty s') && all_digits s'
        then Num (- digits_value 0 s') else NaN
      else if Ascii.eqb c "+" then
        if negb (string_is_empty s') && all_digits s'
        then Num (digits_value 0 s') else NaN
      else if all_digits s then Num (digits_value 0 s) else NaN
  end.

(** [YYYY-MM-DDTHH:mm:ss.sssZ], the format [toISOString] writes. *)
Definition iso_utc_pattern : list atom :=
  date_time_pattern ++ [Lit "."; Digit; Digit; Digit; Lit "Z"].

(** [Date]'s parser on the format [toISOString] writes; other text is
    taken as unparseable. *)
Definition iso_Date_parse (s : string) : option Z :=
  if anchored_match iso_utc_pattern s then
    let month := field s 5 2 in
    let day := field s 8 2 in
    let hour := field s 11 2 in
    let min := field s 14 2 in
    let sec := field s 17 2 in
    if (1 <=? month) && (month <=? 12) && (1 <=? day) && (day <=? 31)
       && (hour <=? 23) && (min <=? 59) && (sec <=? 59)
    then TimeClip (MakeDate (MakeDay (field s 0 4) (month - 1) day)
                            (MakeTime hour min sec + field s 20 3))
    else None
  else None.

(** A stand-in for bcrypt: the hash of a password is the password behind a
    fixed prefix. *)
Definition plain_hash (pw : string) : string := ("$2b$11$" ++ pw)%string.

Definition plain_compare (pw hash : string) : bool := String.eqb (plain_hash pw) hash.

Definition utc_runtime : runtime :=
  mkRuntime (fun _ => 0) iso_Date_parse decimal_StringToNumber plain_compare.

(* ===================================================================== *)
(** ** What the properties speak of *)
(* ===================================================================== *)

(** The [at] values of the events of plant [z] in a ledger table. *)
Definition events_at (z : Z) (es : list event) : list Z :=
  map e_at (filter (fun e => e_plant_id e =? z) es).

(** [MAX(at)], unset over no event. *)
Fixpoint max_at (l : list Z) : option Z :=
  match l with
  | [] => None
  | x :: l' =>
      match max_at l' with
      | None => Some x
      | Some m => Some (Z.max x m)
      end
  end.

(** The cached fields of every plant are the maxima over its events. *)
Definition cache_ok (d : db) : Prop :=
  forall p, In p (plants d) ->
    p_last_watered p = max_at (events_at (p_id p) (waterings d)) /\
    p_last_repotted p = max_at (events_at (p_id p) (repottings d)).

(** What the schema gives: [plants.id] is a key, no key is beyond the
    AUTOINCREMENT counter, and an event belongs to a plant id that has been
    issued. *)
Definition keys_ok (d : db) : Prop :=
  NoDup (map p_id (plants d)) /\
  (forall p, In p (plants d) -> p_id p <= seq_plants d) /\
  (forall e, In e (waterings d) -> e_plant_id e <= seq_plants d) /\
  (forall e, In e (repottings d) -> e_plant_id e <= seq_plants d).

Definition consistent (d : db) : Prop := keys_ok d /\ cache_ok d.

(** [SELECT * FROM plants WHERE id = ?] *)
Definition plant_by_id (d : db) (z : Z) : option plant :=
  find (fun p => p_id p =? z) (plants d).

(** The cookie [c] resolves to the user [uid]. *)
Definition authenticated (d : db) (c : option string) (uid : Z) : Prop :=
  exists sid mail, forall r, getSession d (mkRequest c r) = Some (sid, uid, mail).

(** The routes that create or destroy a session. *)
Definition session_route (r : route) : bool :=
  match r with
  | POST_register _ => true
  | POST_login _ => true
  | POST_logout => true
  | _ => false
  end.

(** The table [sessions] with every [created_at] rewritten by [f]. *)
Definition redate_sessions (f : session -> Z) (d : db) : db :=
  set_sessions d (map (fun s => mkSession (s_id s) (s_user_id s) (f s)) (sessions d)).

(** The rows of [history] for plant [z], as the two SELECTs label them. *)
Definition ledger_rows (d : db) (z : Z) : list (kind * Z) :=
  map (fun t => (watered, t)) (events_at z (waterings d)) ++
  map (fun t => (repotted, t)) (events_at z (repottings d)).

Definition kind_rank (k : kind) : Z :=
  match k with
  | watered => 0
  | repotted => 1
  end.

(** The order [history] lists its rows in: later first, and at one time a
    watering ahead of a repotting. *)
Definition history_order (a b : kind * Z) : Prop :=
  snd a > snd b \/ (snd a = snd b /\ kind_rank (fst a) <= kind_rank (fst b)).

(** The history as the specification words it: the events in the order
    they were appended, sorted by time, latest first, ties left in the
    order of insertion. *)
Definition history_by_insertion (appended : list (kind * Z)) : list (kind * Z) :=
  js_sort by_at_desc appended.

(** What a request of the examples reads from outside. *)
Definition outside (t : Z) (token pw : string) : env :=
  mkEnv t token (plain_hash pw).

Definition alice : credentials := mkCredentials (Some "a@x.test") (Some "pw123").
Definition bob : credentials := mkCredentials (Some "b@x.test") (Some "pw456").

Definition as_alice (r : route) : request := mkRequest (Some "token-a") r.
Definition as_bob (r : route) : request := mkRequest (Some "token-b") r.

Definition fern : attrs := mkAttrs (Some "Fern") None None JUndefined JUndefined None.

(** The state the examples start from: two users, and one plant of the
    first user. *)
Definition garden : db :=
  run utc_runtime empty_db
      [ (outside 1000 "token-a" "pw123", mkRequest None (POST_register alice));
        (outside 2000 "token-b" "pw456", mkRequest None (POST_register bob));
        (outside 3000 "" "", as_alice (POST_plants fern)) ].

(** The plant of the garden. *)
Definition the_fern : plant :=
  mkPlant 1 "Fern" None None (Some 7) (Some 365) None None None (Some 1).

(** The garden after a repotting and then a watering of one day, the two
    of another day in the other order, and an earlier watering. *)
Definition tended_garden : db :=
  run utc_runtime garden
      [ (outside 4000 "" "", as_alice (POST_repot (Num 1) (Some "2024-01-10")));
        (outside 5000 "" "", as_alice (POST_water (Num 1) (Some "2024-01-10")));
        (outside 6000 "" "", as_alice (POST_water (Num 1) (Some "2024-01-20")));
        (outside 7000 "" "", as_alice (POST_repot (Num 1) (Some "2024-01-20")));
        (outside 8000 "" "", as_alice (POST_water (Num 1) (Some "2024-01-05"))) ].

(** The plant of the tended garden. *)
Definition tended_fern : plant :=
  mkPlant 1 "Fern" None None (Some 7) (Some 365) None
          (Some 1705708800000) (Some 1705708800000) (Some 1).




(** The id [z] has been issued and no plant bears it. *)
Definition retired (z : Z) (d : db) : Prop :=
  z <= seq_plants d /\ forall p, In p (plants d) -> p_id p <> z.

(* ===================================================================== *)
(** ** The client's escaping (src/public/app.js) *)
(* ===================================================================== *)

(** The double quote. *)
Definition quot : ascii := "034"%char.

(** The replacement table of [escapeHtml]; [None] for a character the
    class of its pattern (ampersand, the two angle brackets, the double
    quote and the apostrophe) does not match. *)
Definition entity (c : ascii) : option string :=
  if Ascii.eqb c "&" then Some "&amp;"
  else if Ascii.eqb c "<" then Some "&lt;"
  else if Ascii.eqb c ">" then Some "&gt;"
  else if Ascii.eqb c quot then Some "&quot;"
  else if Ascii.eqb c "'" then Some "&#39;"
  else None.

(** [s.replace(pattern, c => table[c])], the pattern global. *)
Fixpoint replace_special (s : string) : string :=
  match s with
  | EmptyString => EmptyString
  | String c s' =>
      match entity c with
      | Some e => (e ++ replace_special s')%string
      | None => String c (replace_special s')
      end
  end.

(** [escapeHtml(s)], on a string or on nothing ([s || '']). *)
Definition escapeHtml (s : option string) : string :=
  replace_special (text_or_empty s).

(** What an HTML parser reads back from text with the five entities. *)
Fixpoint read_entities (s : string) : string :=
  match s with
  | String "&" (String "a" (String "m" (String "p" (String ";" r)))) =>
      String "&" (read_entities r)
  | String "&" (String "l" (String "t" (String ";" r))) =>
      String "<" (read_entities r)
  | String "&" (String "g" (String "t" (String ";" r))) =>
      String ">" (read_entities r)
  | String "&" (String "q" (String "u" (String "o" (String "t" (String ";" r))))) =>
      String quot (read_entities r)
  | String "&" (String "#" (String "3" (String "9" (String ";" r)))) =>
      String "'" (read_entities r)
  | String c r => String c (read_entities r)
  | EmptyString => EmptyString
  end.

(* ===================================================================== *)
(** ** Accounts, and what a request may do to a record *)
(* ===================================================================== *)

(** What the schema gives for [users] and [sessions]: the ids and the
    emails of the users are keys, no user id is beyond the AUTOINCREMENT
    counter, the session ids are keys, and every session belongs to a
    user. *)
Definition accounts_ok (d : db) : Prop :=
  NoDup (map u_id (users d)) /\
  (forall u, In u (users d) -> u_id u <= seq_users d) /\
  NoDup (map u_email (users d)) /\
  NoDup (map s_id (sessions d)) /\
  (forall s, In s (sessions d) -> exists u, In u (users d) /\ u_id u = s_user_id s).

(** The cached value [b] is not earlier than the cached value [a]. *)
Definition not_before (a b : option Z) : Prop :=
  match a, b with
  | None, _ => True
  | Some x, Some y => x <= y
  | Some _, None => False
  end.

(** The routes behind [requireAuth], and [GET /api/me]. *)
Definition guarded_route (r : route) : bool :=
  match r with
  | POST_register _ => false
  | POST_login _ => false
  | POST_logout => false
  | _ => true
  end.

(** The year, month and day a string of the shape [YYYY-MM-DD] spells. *)
Definition spelt_year (s : string) : Z := field s 0 4.
Definition spelt_month (s : string) : Z := field s 5 2.
Definition spelt_day (s : string) : Z := field s 8 2.

(** Where a row of the table after a request comes from: it is new, with
    an id beyond the old counter, or it stands for a row of the same id
    and owner whose cached fields were not later. *)
Definition row_origin (d : db) (q : plant) : Prop :=
  p_id q > seq_plants d \/
  exists q0, In q0 (plants d) /\ p_id q0 = p_id q /\ p_user_id q0 = p_user_id q /\
             not_before (p_last_watered q0) (p_last_watered q) /\
             not_before (p_last_repotted q0) (p_last_repotted q).

(** What one request, or a sequence of them, keeps: the keys, the
    counter going up only, and the origin of every row. *)
Definition step_ok (d d' : db) : Prop :=
  keys_ok d' /\ seq_plants d <= seq_plants d' /\
  forall q, In q (plants d') -> row_origin d q.

(* ===================================================================== *)
(** * Properties *)
(* ===================================================================== *)

(* ===================================================================== *)
(** ** Sorting *)
(* ===================================================================== *)

Lemma sort_insert_perm {A : Type} (cmp : A -> A -> Z) (x : A) (l : list A) :
  Permutation (sort_insert cmp x l) (x :: l).
Proof.
  induction l as [|y l IH]; simpl.
  - apply Permutation_refl.
  - destruct (cmp x y <=? 0).
    + apply Permutation_refl.
    + apply Permutation_trans with (y :: x :: l).
      * apply perm_skip, IH.
      * apply perm_swap.
Qed.

Lemma js_sort_perm {A : Type} (cmp : A -> A -> Z) (l : list A) :
  Permutation (js_sort cmp l) l.
Proof.
  induction l as [|x l IH]; simpl.
  - apply perm_nil.
  - apply Permutation_trans with (x :: js_sort cmp l).
    + apply sort_insert_perm.
    + apply perm_skip, IH.
Qed.

Lemma history_order_time (a b : kind * Z) : history_order a b -> snd b <= snd a.
Proof. unfold history_order. lia. Qed.

(** Inserting a row keeps a history ordered, provided the row may stand
    ahead of every row of its own time. *)
Lemma sort_insert_history_order (x : kind * Z) (l : list (kind * Z)) :
  StronglySorted history_order l ->
  (forall y, In y l -> snd y = snd x -> kind_rank (fst x) <= kind_rank (fst y)) ->
  StronglySorted history_order (sort_insert by_at_desc x l).
Proof.
  induction l as [|y l IH]; intros Hs Hx; simpl.
  - constructor; constructor.
  - inversion Hs as [|y' l' Hl Hy]; subst.
    destruct (by_at_desc x y <=? 0) eqn:E; unfold by_at_desc in E.
    + apply Z.leb_le in E.
      constructor; [exact Hs|].
      apply Forall_forall. intros z Hz.
      assert (Hzy : snd z <= snd y).
      { destruct Hz as [<-|Hz]; [lia|].
        apply history_order_time. rewrite Forall_forall in Hy. now apply Hy. }
      destruct (Z.eq_dec (snd z) (snd x)) as [Heq|Hne].
      * right. split; [lia|]. now apply Hx.
      * left. lia.
    + apply Z.leb_gt in E.
      constructor.
      * apply IH; [exact Hl|]. intros z Hz. apply Hx. now right.
      * apply Permutation_Forall with (x :: l).
        -- apply Permutation_sym, sort_insert_perm.
        -- constructor; [left; lia | exact Hy].
Qed.

(** A list whose waterings all come ahead of its repottings sorts into a
    history. *)
Lemma js_sort_history_order (l : list (kind * Z)) :
  StronglySorted (fun a b => kind_rank (fst a) <= kind_rank (fst b)) l ->
  StronglySorted history_order (js_sort by_at_desc l).
Proof.
  induction 1 as [|x l Hl IH Hx]; simpl.
  - constructor.
  - apply sort_insert_history_order; [exact IH|].
    intros y Hy _.
    rewrite Forall_forall in Hx. apply Hx.
    apply Permutation_in with (js_sort by_at_desc l); [apply js_sort_perm | exact Hy].
Qed.

Lemma kinds_in_order (ws rs : list Z) :
  StronglySorted (fun a b => kind_rank (fst a) <= kind_rank (fst b))
                 (map (fun t => (watered, t)) ws ++ map (fun t => (repotted, t)) rs).
Proof.
  induction ws as [|w ws IH]; simpl.
  - induction rs as [|r rs IHr]; simpl; constructor; [exact IHr|].
    apply Forall_forall. intros y Hy. apply in_map_iff in Hy.
    destruct Hy as [t [<- _]]. simpl. lia.
  - constructor; [exact IH|].
    apply Forall_forall. intros y Hy. simpl.
    destruct (fst y); simpl; lia.
Qed.

Lemma select_events_perm (k : kind) (z : Z) (es : list event) :
  Permutation (select_events k z es) (map (fun t => (k, t)) (events_at z es)).
Proof.
  unfold select_events, events_at, order_by_desc.
  rewrite map_map. apply Permutation_map, js_sort_perm.
Qed.

Lemma select_events_kind (k : kind) (z : Z) (es : list event) :
  exists ts, select_events k z es = map (fun t => (k, t)) ts.
Proof.
  unfold select_events.
  exists (map e_at (order_by_desc e_at (filter (fun e => e_plant_id e =? z) es))).
  now rewrite map_map.
Qed.

(** A history has one order only: two ordered lists of the same rows are
    the same list. *)
Lemma history_order_antisym (a b : kind * Z) :
  history_order a b -> history_order b a -> a = b.
Proof.
  destruct a as [ka ta], b as [kb tb]. unfold history_order. simpl.
  intros H1 H2. assert (ta = tb) by lia. subst tb. f_equal.
  destruct ka, kb; simpl in *; try reflexivity; lia.
Qed.

Lemma history_rows_unique (l1 l2 : list (kind * Z)) :
  StronglySorted history_order l1 -> StronglySorted history_order l2 ->
  Permutation l1 l2 -> l1 = l2.
Proof.
  revert l2. induction l1 as [|a l1 IH]; intros l2 H1 H2 Hp.
  - apply Permutation_nil in Hp. now subst.
  - destruct l2 as [|b l2].
    + apply Permutation_sym, Permutation_nil in Hp. discriminate.
    + inversion H1 as [|a' l1' Hs1 Ha]; subst.
      inversion H2 as [|b' l2' Hs2 Hb]; subst.
      rewrite Forall_forall in Ha, Hb.
      assert (a = b) as ->.
      { assert (Hina : In a (b :: l2)) by (apply (Permutation_in _ Hp); now left).
        assert (Hinb : In b (a :: l1))
          by (apply (Permutation_in _ (Permutation_sym Hp)); now left).
        destruct Hina as [<-|Hina]; [reflexivity|].
        destruct Hinb as [<-|Hinb]; [reflexivity|].
        apply history_order_antisym; [now apply Ha | now apply Hb]. }
      f_equal. apply IH; [exact Hs1 | exact Hs2 |].
      now apply Permutation_cons_inv in Hp.
Qed.

(** The order in which the two SELECTs give their rows does not reach the
    response: the sort puts any order of them into the same list. *)
Lemma history_any_select_order (ws ws' rs rs' : list Z) :
  Permutation ws ws' -> Permutation rs rs' ->
  js_sort by_at_desc (map (fun t => (watered, t)) ws ++ map (fun t => (repotted, t)) rs)
  = js_sort by_at_desc (map (fun t => (watered, t)) ws' ++ map (fun t => (repotted, t)) rs').
Proof.
  intros Hw Hr. apply history_rows_unique.
  - apply js_sort_history_order, kinds_in_order.
  - apply js_sort_history_order, kinds_in_order.
  - apply Permutation_trans with
      (map (fun t => (watered, t)) ws ++ map (fun t => (repotted, t)) rs);
      [apply js_sort_perm|].
    apply Permutation_trans with
      (map (fun t => (watered, t)) ws' ++ map (fun t => (repotted, t)) rs');
      [|apply Permutation_sym, js_sort_perm].
    apply Permutation_app; now apply Permutation_map.
Qed.

(* ===================================================================== *)
(** ** The ledger and its cache *)
(* ===================================================================== *)

Lemma max_at_snoc (l : list Z) (x : Z) :
  max_at (l ++ [x]) =
  Some (match max_at l with None => x | Some m => Z.max m x end).
Proof.
  induction l as [|y l IH]; simpl.
  - reflexivity.
  - rewrite IH. destruct (max_at l); f_equal; lia.
Qed.

Lemma max_at_upper (l : list Z) (m : Z) :
  max_at l = Some m -> In m l /\ forall x, In x l -> x <= m.
Proof.
  revert m. induction l as [|y l IH]; simpl; intros m H.
  - discriminate.
  - destruct (max_at l) as [m'|] eqn:E.
    + injection H as <-. destruct (IH m' eq_refl) as [Hin Hle]. split.
      * destruct (Z.max_spec y m') as [[_ ->]|[_ ->]]; auto.
      * intros x [<-|Hx]; [lia|]. specialize (Hle x Hx). lia.
    + injection H as <-. destruct l; [|simpl in E; destruct (max_at l); discriminate].
      split; [now left|]. intros x [<-|[]]. lia.
Qed.

Lemma events_at_snoc (z : Z) (es : list event) (e : event) :
  events_at z (es ++ [e]) =
  events_at z es ++ (if e_plant_id e =? z then [e_at e] else []).
Proof.
  unfold events_at. rewrite filter_app, map_app. simpl.
  destruct (e_plant_id e =? z); reflexivity.
Qed.

Lemma events_at_delete_other (z z' : Z) (es : list event) :
  z' <> z ->
  events_at z' (filter (fun e => negb (e_plant_id e =? z)) es) = events_at z' es.
Proof.
  intros Hne. unfold events_at. f_equal.
  induction es as [|e es IH]; simpl; [reflexivity|].
  destruct (e_plant_id e =? z) eqn:E1; simpl.
  - apply Z.eqb_eq in E1.
    destruct (e_plant_id e =? z') eqn:E2; [apply Z.eqb_eq in E2; lia | exact IH].
  - destruct (e_plant_id e =? z'); [f_equal|]; exact IH.
Qed.

Lemma events_at_delete_same (z : Z) (es : list event) :
  events_at z (filter (fun e => negb (e_plant_id e =? z)) es) = [].
Proof.
  unfold events_at.
  induction es as [|e es IH]; simpl; [reflexivity|].
  destruct (e_plant_id e =? z) eqn:E; simpl; [exact IH|].
  rewrite E. exact IH.
Qed.

Lemma events_at_none (z : Z) (es : list event) :
  (forall e, In e es -> e_plant_id e <> z) -> events_at z es = [].
Proof.
  intros H. unfold events_at.
  induction es as [|e es IH]; simpl; [reflexivity|].
  destruct (e_plant_id e =? z) eqn:E.
  - apply Z.eqb_eq in E. exfalso. apply (H e); [now left | exact E].
  - apply IH. intros e' He'. apply H. now right.
Qed.

(* ===================================================================== *)
(** ** Selecting and updating plants *)
(* ===================================================================== *)

Lemma select_plant_some (d : db) (id : number) (uid : Z) (p : plant) :
  select_plant d id uid = Some p ->
  id = Num (p_id p) /\ In p (plants d) /\ visible_to uid p = true.
Proof.
  destruct id as [|z]; simpl; [discriminate|].
  intros H. apply find_some in H. destruct H as [Hin Hp].
  apply andb_prop in Hp. destruct Hp as [Hid Hv].
  apply Z.eqb_eq in Hid. subst z. auto.
Qed.

Lemma update_where_id_ids (z : Z) (f : plant -> plant) (ps : list plant) :
  (forall q, p_id (f q) = p_id q) ->
  map p_id (update_where_id z f ps) = map p_id ps.
Proof.
  intros Hf. unfold update_where_id. rewrite map_map.
  apply map_ext. intros q. destruct (p_id q =? z); [apply Hf | reflexivity].
Qed.

Lemma in_update_where_id (z : Z) (f : plant -> plant) (ps : list plant) (q : plant) :
  In q (update_where_id z f ps) ->
  exists q0, In q0 ps /\ q = (if p_id q0 =? z then f q0 else q0).
Proof.
  unfold update_where_id. intros H. apply in_map_iff in H.
  destruct H as [q0 [Hq Hin]]. exists q0. auto.
Qed.

(** With [id] a key, the row of a given id is the one listed. *)
Lemma key_determines_row (ps : list plant) (p q : plant) :
  NoDup (map p_id ps) -> In p ps -> In q ps -> p_id p = p_id q -> p = q.
Proof.
  induction ps as [|r ps IH]; simpl; intros Hnd Hp Hq Heq; [contradiction|].
  inversion Hnd as [|x l Hnotin Hnd']; subst.
  destruct Hp as [->|Hp], Hq as [->|Hq].
  - reflexivity.
  - exfalso. apply Hnotin. rewrite Heq. now apply in_map.
  - exfalso. apply Hnotin. rewrite <- Heq. now apply in_map.
  - now apply IH.
Qed.

Lemma plant_by_id_key (d : db) (p : plant) :
  NoDup (map p_id (plants d)) -> In p (plants d) ->
  plant_by_id d (p_id p) = Some p.
Proof.
  intros Hnd Hin. unfold plant_by_id.
  destruct (find (fun q => p_id q =? p_id p) (plants d)) as [q|] eqn:E.
  - apply find_some in E. destruct E as [Hq Hid]. apply Z.eqb_eq in Hid.
    f_equal. now apply (key_determines_row (plants d)).
  - exfalso. apply (find_none _ _ E) in Hin. rewrite Z.eqb_refl in Hin. discriminate.
Qed.

(* ===================================================================== *)
(** ** Every request keeps the database consistent *)
(* ===================================================================== *)

Lemma consistent_same (d d' : db) :
  plants d' = plants d -> waterings d' = waterings d ->
  repottings d' = repottings d -> seq_plants d' = seq_plants d ->
  consistent d -> consistent d'.
Proof.
  intros Hp Hw Hr Hs [Hk Hc]. unfold consistent, keys_ok, cache_ok in *.
  rewrite Hp, Hw, Hr, Hs. auto.
Qed.

Lemma consistent_empty : consistent empty_db.
Proof.
  split.
  - repeat split; simpl; [constructor | | |]; intros ? [].
  - intros p [].
Qed.

Lemma createSession_tables (d : db) (e : env) (uid : Z) (sid : string) (d' : db) :
  createSession d e uid = Normal (sid, d') ->
  users d' = users d /\ plants d' = plants d /\ waterings d' = waterings d /\
  repottings d' = repottings d /\ seq_plants d' = seq_plants d /\
  sessions d' = sessions d ++ [mkSession sid uid (now e)].
Proof.
  unfold createSession.
  destruct (existsb _ _); [discriminate|].
  intros H. injection H as <- <-. simpl. auto 10.
Qed.

Lemma post_register_consistent (d : db) (e : env) (c : credentials) :
  consistent d -> consistent (state (post_register d e c)).
Proof.
  intros H. unfold post_register.
  destruct (negb (text_truthy (email c)) || negb (text_truthy (password c))); [exact H|].
  destruct (existsb _ (users d)); [exact H|].
  destruct (createSession _ e (seq_users d + 1)) as [[sid d2]|ex] eqn:E; simpl.
  - apply createSession_tables in E. simpl in E.
    destruct E as (_ & Hp & Hw & Hr & Hs & _).
    now apply (consistent_same d).
  - now apply (consistent_same d).
Qed.

Lemma post_login_consistent (rt : runtime) (d : db) (e : env) (c : credentials) :
  consistent d -> consistent (state (post_login rt d e c)).
Proof.
  intros H. unfold post_login.
  destruct (find _ (users d)) as [u|]; [|exact H].
  destruct (negb _); [exact H|].
  destruct (createSession d e (u_id u)) as [[sid d1]|ex] eqn:E; simpl; [|exact H].
  apply createSession_tables in E. destruct E as (_ & Hp & Hw & Hr & Hs & _).
  now apply (consistent_same d).
Qed.

Lemma post_logout_consistent (d : db) (req : request) :
  consistent d -> consistent (state (post_logout d req)).
Proof.
  intros H. unfold post_logout, destroySession. simpl.
  destruct (signedCookie req) as [sid|]; [|exact H].
  destruct (string_is_empty sid); [exact H|].
  now apply (consistent_same d).
Qed.

Lemma post_plants_consistent (rt : runtime) (d : db) (u : identity) (a : attrs) :
  consistent d -> consistent (state (post_plants rt d u a)).
Proof.
  intros H. pose proof H as [(Hnd & Hp & Hw & Hr) Hc]. unfold post_plants.
  destruct (negb (text_truthy (name a))); [exact H|].
  simpl. split; [repeat split; simpl|].
  - rewrite map_app. simpl.
    apply Permutation_NoDup with (seq_plants d + 1 :: map p_id (plants d)).
    + apply Permutation_cons_append.
    + constructor; [|exact Hnd].
      intros Hin. apply in_map_iff in Hin. destruct Hin as [p [Hid Hin]].
      specialize (Hp p Hin). lia.
  - intros p Hin. apply in_app_or in Hin. destruct Hin as [Hin|[<-|[]]]; simpl.
    + specialize (Hp p Hin). lia.
    + lia.
  - intros ev Hin. specialize (Hw ev Hin). lia.
  - intros ev Hin. specialize (Hr ev Hin). lia.
  - intros p Hin. simpl in *. apply in_app_or in Hin. destruct Hin as [Hin|[<-|[]]].
    + now apply Hc.
    + simpl. rewrite !events_at_none; [split; reflexivity | |].
      * intros ev Hin. specialize (Hr ev Hin). lia.
      * intros ev Hin. specialize (Hw ev Hin). lia.
Qed.

Lemma put_plant_consistent (rt : runtime) (d : db) (u : identity) (id : number) (a : attrs) :
  consistent d -> consistent (state (put_plant rt d u id a)).
Proof.
  intros H. pose proof H as [(Hnd & Hp & Hw & Hr) Hc]. unfold put_plant.
  destruct (select_plant d id (user_id u)) as [p|]; [|exact H].
  simpl. split; [repeat split; simpl|].
  - rewrite update_where_id_ids; [exact Hnd | reflexivity].
  - intros q Hin. apply in_update_where_id in Hin. destruct Hin as [q0 [Hin ->]].
    specialize (Hp q0 Hin). destruct (p_id q0 =? p_id p); simpl; exact Hp.
  - exact Hw.
  - exact Hr.
  - intros q Hin. simpl in *. apply in_update_where_id in Hin.
    destruct Hin as [q0 [Hin ->]]. specialize (Hc q0 Hin).
    destruct (p_id q0 =? p_id p); simpl; exact Hc.
Qed.

Lemma delete_plant_consistent (d : db) (u : identity) (id : number) :
  consistent d -> consistent (state (delete_plant d u id)).
Proof.
  intros H. pose proof H as [(Hnd & Hp & Hw & Hr) Hc]. unfold delete_plant.
  destruct (select_plant d id (user_id u)) as [p|]; [|exact H].
  simpl. split; [repeat split; simpl|].
  - clear - Hnd. induction (plants d) as [|q ps IH]; simpl; [constructor|].
    inversion Hnd as [|x l Hnotin Hnd']; subst.
    destruct (p_id q =? p_id p); simpl; [now apply IH|].
    constructor; [|now apply IH].
    intros Hin. apply Hnotin. apply in_map_iff in Hin. destruct Hin as [r [Hid Hin]].
    apply filter_In in Hin. rewrite <- Hid. apply in_map. tauto.
  - intros q Hin. apply filter_In in Hin. apply Hp. tauto.
  - intros ev Hin. apply filter_In in Hin. apply Hw. tauto.
  - intros ev Hin. apply filter_In in Hin. apply Hr. tauto.
  - intros q Hin. simpl in *. apply filter_In in Hin. destruct Hin as [Hin Hne].
    apply negb_true_iff, Z.eqb_neq in Hne.
    rewrite !events_at_delete_other by exact Hne. now apply Hc.
Qed.

(** The compare-and-set of the handlers is the running maximum. *)
Lemma newer_max (at_ : Z) (l : list Z) :
  max_at (l ++ [at_]) = if newer at_ (max_at l) then Some at_ else max_at l.
Proof.
  rewrite max_at_snoc. unfold newer.
  destruct (max_at l) as [m|]; [|reflexivity].
  destruct (Z.gtb_spec at_ m); f_equal; lia.
Qed.

Lemma post_water_consistent (rt : runtime) (d : db) (e : env) (u : identity)
      (id : number) (date : option string) :
  consistent d -> consistent (state (post_water rt d e u id date)).
Proof.
  intros H. pose proof H as [(Hnd & Hp & Hw & Hr) Hc]. unfold post_water.
  destruct (select_plant d id (user_id u)) as [p|] eqn:Es; [|exact H].
  apply select_plant_some in Es. destruct Es as (-> & Hin & _).
  destruct (normalizeDate rt (now e) date) as [at_|ex]; [|exact H].
  assert (Hev : forall ev,
             In ev (waterings d ++ [mkEvent (seq_waterings d + 1) (p_id p) at_
                                            (Some (user_id u))]) ->
             e_plant_id ev <= seq_plants d).
  { intros ev Hev. apply in_app_or in Hev. destruct Hev as [Hev|[<-|[]]].
    - now apply Hw.
    - simpl. now apply Hp. }
  destruct (Hc p Hin) as [Hpw _].
  destruct (newer at_ (p_last_watered p)) eqn:En; simpl.
  - split; [repeat split; simpl|].
    + rewrite update_where_id_ids; [exact Hnd | reflexivity].
    + intros q Hq. apply in_update_where_id in Hq. destruct Hq as [q0 [Hq ->]].
      specialize (Hp q0 Hq). destruct (p_id q0 =? p_id p); simpl; exact Hp.
    + exact Hev.
    + exact Hr.
    + intros q Hq. simpl in *. apply in_update_where_id in Hq.
      destruct Hq as [q0 [Hq ->]]. destruct (Hc q0 Hq) as [Hq0w Hq0r].
      destruct (p_id q0 =? p_id p) eqn:E; simpl.
      * apply Z.eqb_eq in E. rewrite E. split.
        -- rewrite events_at_snoc. simpl. rewrite Z.eqb_refl.
           rewrite newer_max, <- Hpw, En. reflexivity.
        -- rewrite <- E. exact Hq0r.
      * split; [|exact Hq0r].
        rewrite events_at_snoc. simpl. rewrite Z.eqb_sym, E, app_nil_r. exact Hq0w.
  - split; [repeat split; simpl; assumption|].
    intros q Hq. simpl in *. destruct (Hc q Hq) as [Hqw Hqr].
    split; [|exact Hqr].
    rewrite events_at_snoc. simpl.
    destruct (p_id p =? p_id q) eqn:E.
    + apply Z.eqb_eq in E. rewrite newer_max, <- Hqw.
      assert (q = p) as -> by (symmetry in E; now apply (key_determines_row (plants d))).
      rewrite En. reflexivity.
    + rewrite app_nil_r. exact Hqw.
Qed.

Lemma post_repot_consistent (rt : runtime) (d : db) (e : env) (u : identity)
      (id : number) (date : option string) :
  consistent d -> consistent (state (post_repot rt d e u id date)).
Proof.
  intros H. pose proof H as [(Hnd & Hp & Hw & Hr) Hc]. unfold post_repot.
  destruct (select_plant d id (user_id u)) as [p|] eqn:Es; [|exact H].
  apply select_plant_some in Es. destruct Es as (-> & Hin & _).
  destruct (normalizeDate rt (now e) date) as [at_|ex]; [|exact H].
  assert (Hev : forall ev,
             In ev (repottings d ++ [mkEvent (seq_repottings d + 1) (p_id p) at_
                                             (Some (user_id u))]) ->
             e_plant_id ev <= seq_plants d).
  { intros ev Hev. apply in_app_or in Hev. destruct Hev as [Hev|[<-|[]]].
    - now apply Hr.
    - simpl. now apply Hp. }
  destruct (Hc p Hin) as [_ Hpr].
  destruct (newer at_ (p_last_repotted p)) eqn:En; simpl.
  - split; [repeat split; simpl|].
    + rewrite update_where_id_ids; [exact Hnd | reflexivity].
    + intros q Hq. apply in_update_where_id in Hq. destruct Hq as [q0 [Hq ->]].
      specialize (Hp q0 Hq). destruct (p_id q0 =? p_id p); simpl; exact Hp.
    + exact Hw.
    + exact Hev.
    + intros q Hq. simpl in *. apply in_update_where_id in Hq.
      destruct Hq as [q0 [Hq ->]]. destruct (Hc q0 Hq) as [Hq0w Hq0r].
      destruct (p_id q0 =? p_id p) eqn:E; simpl.
      * apply Z.eqb_eq in E. rewrite E. split.
        -- rewrite <- E. exact Hq0w.
        -- rewrite events_at_snoc. simpl. rewrite Z.eqb_refl.
           rewrite newer_max, <- Hpr, En. reflexivity.
      * split; [exact Hq0w|].
        rewrite events_at_snoc. simpl. rewrite Z.eqb_sym, E, app_nil_r. exact Hq0r.
  - split; [repeat split; simpl; assumption|].
    intros q Hq. simpl in *. destruct (Hc q Hq) as [Hqw Hqr].
    split; [exact Hqw|].
    rewrite events_at_snoc. simpl.
    destruct (p_id p =? p_id q) eqn:E.
    + apply Z.eqb_eq in E. rewrite newer_max, <- Hqr.
      assert (q = p) as -> by (symmetry in E; now apply (key_determines_row (plants d))).
      rewrite En. reflexivity.
    + rewrite app_nil_r. exact Hqr.
Qed.

Lemma requireAuth_cases (d : db) (req : request) (next : identity -> outcome) :
  requireAuth d req next = reply unauthorized d \/
  exists u, requireAuth d req next = next u.
Proof.
  unfold requireAuth. destruct (getSession d req) as [[[sid uid] mail]|].
  - right. now exists (mkIdentity uid mail).
  - now left.
Qed.

Lemma handle_consistent (rt : runtime) (d : db) (e : env) (req : request) :
  consistent d -> consistent (state (handle rt d e req)).
Proof.
  intros H. unfold handle.
  destruct (target req) as [c|c| | | |a|id a|id|id date|id date|id].
  - now apply post_register_consistent.
  - now apply post_login_consistent.
  - now apply post_logout_consistent.
  - unfold get_me. destruct (getSession d req) as [[[sid uid] mail]|]; exact H.
  - destruct (requireAuth_cases d req (fun u => get_plants d u)) as [->|[u ->]]; exact H.
  - destruct (requireAuth_cases d req (fun u => post_plants rt d u a)) as [->|[u ->]];
      [exact H | now apply post_plants_consistent].
  - destruct (requireAuth_cases d req (fun u => put_plant rt d u id a)) as [->|[u ->]];
      [exact H | now apply put_plant_consistent].
  - destruct (requireAuth_cases d req (fun u => delete_plant d u id)) as [->|[u ->]];
      [exact H | now apply delete_plant_consistent].
  - destruct (requireAuth_cases d req (fun u => post_water rt d e u id date)) as [->|[u ->]];
      [exact H | now apply post_water_consistent].
  - destruct (requireAuth_cases d req (fun u => post_repot rt d e u id date)) as [->|[u ->]];
      [exact H | now apply post_repot_consistent].
  - destruct (requireAuth_cases d req (fun u => get_history d u id)) as [->|[u ->]];
      [exact H|].
    unfold get_history. destruct (select_plant d id (user_id u)); exact H.
Qed.

Lemma run_consistent (rt : runtime) (rs : list (env * request)) (d : db) :
  consistent d -> consistent (run rt d rs).
Proof.
  revert d. induction rs as [|[e req] rs IH]; intros d H; simpl.
  - exact H.
  - apply IH. now apply handle_consistent.
Qed.

(* ===================================================================== *)
(** ** The cached last-event fields *)
(* ===================================================================== *)

Lemma plant_by_id_update (d : db) (z : Z) (f : plant -> plant) (p : plant) :
  (forall q, p_id (f q) = p_id q) ->
  plant_by_id d z = Some p ->
  plant_by_id (set_plants d (update_where_id z f (plants d)) (seq_plants d)) z
  = Some (f p).
Proof.
  intros Hf. unfold plant_by_id. simpl.
  induction (plants d) as [|q ps IH]; simpl; [discriminate|].
  destruct (p_id q =? z) eqn:E.
  - intros H. injection H as ->. rewrite Hf, E. reflexivity.
  - rewrite E. exact IH.
Qed.

(** C1: after any sequence of requests on a consistent database (appends
    in any timestamp order among them) the cached [last_watered] of every
    record is the maximum [at] over its watering events, unset when it has
    none, and [last_repotted] likewise over its repotting events; and one
    append on an accessible record leaves the cached field as it is when
    the effective timestamp is at most the cached value, and sets it to
    exactly that timestamp when it is greater or the field is unset. *)
Theorem C1_cached_last_event_is_max (rt : runtime) (d : db) :
  consistent d ->
  (forall rs p, In p (plants (run rt d rs)) ->
     p_last_watered p = max_at (events_at (p_id p) (waterings (run rt d rs))) /\
     p_last_repotted p = max_at (events_at (p_id p) (repottings (run rt d rs)))) /\
  (forall e u id date p at_,
     select_plant d id (user_id u) = Some p ->
     normalizeDate rt (now e) date = Normal at_ ->
     (exists q,
        plant_by_id (state (post_water rt d e u id date)) (p_id p) = Some q /\
        p_last_watered q = match p_last_watered p with
                           | Some c => if at_ <=? c then Some c else Some at_
                           | None => Some at_
                           end) /\
     (exists q,
        plant_by_id (state (post_repot rt d e u id date)) (p_id p) = Some q /\
        p_last_repotted q = match p_last_repotted p with
                            | Some c => if at_ <=? c then Some c else Some at_
                            | None => Some at_
                            end)).
Proof.
  intros H. split.
  - intros rs. apply (run_consistent rt rs d H).
  - intros e u id date p at_ Hsel Hat.
    destruct H as [(Hnd & _) _].
    pose proof (select_plant_some _ _ _ _ Hsel) as (_ & Hin & _).
    pose proof (plant_by_id_key d p Hnd Hin) as Hby.
    split.
    + unfold post_water. rewrite Hsel, Hat.
      destruct (newer at_ (p_last_watered p)) eqn:En; simpl state.
      * exists (set_last_watered at_ p). split.
        -- apply (plant_by_id_update
                    (set_waterings d
                       (waterings d ++ [mkEvent (seq_waterings d + 1) (p_id p) at_
                                                (Some (user_id u))])
                       (seq_waterings d + 1))); [reflexivity | exact Hby].
        -- simpl. unfold newer in En. destruct (p_last_watered p) as [c|]; [|reflexivity].
           destruct (Z.leb_spec at_ c); [|reflexivity].
           apply Z.gtb_lt in En. lia.
      * exists p. split; [exact Hby|].
        unfold newer in En. destruct (p_last_watered p) as [c|]; [|discriminate].
        destruct (Z.leb_spec at_ c); [reflexivity|].
        destruct (Z.gtb_spec at_ c); [discriminate | lia].
    + unfold post_repot. rewrite Hsel, Hat.
      destruct (newer at_ (p_last_repotted p)) eqn:En; simpl state.
      * exists (set_last_repotted at_ p). split.
        -- apply (plant_by_id_update
                    (set_repottings d
                       (repottings d ++ [mkEvent (seq_repottings d + 1) (p_id p) at_
                                                 (Some (user_id u))])
                       (seq_repottings d + 1))); [reflexivity | exact Hby].
        -- simpl. unfold newer in En. destruct (p_last_repotted p) as [c|]; [|reflexivity].
           destruct (Z.leb_spec at_ c); [|reflexivity].
           apply Z.gtb_lt in En. lia.
      * exists p. split; [exact Hby|].
        unfold newer in En. destruct (p_last_repotted p) as [c|]; [|discriminate].
        destruct (Z.leb_spec at_ c); [reflexivity|].
        destruct (Z.gtb_spec at_ c); [discriminate | lia].
Qed.

Lemma garden_consistent : consistent garden.
Proof. unfold garden. apply run_consistent, consistent_empty. Qed.

(** The scenario of the specification, step by step: the backdated
    watering leaves the cache at 2024-01-10, the later one moves it to
    2024-01-20, and the history lists the three, latest first. *)
Example scenario_backdating :
  let on_10 := (outside 4000 "" "", as_alice (POST_water (Num 1) (Some "2024-01-10"))) in
  let on_05 := (outside 5000 "" "", as_alice (POST_water (Num 1) (Some "2024-01-05"))) in
  let on_20 := (outside 6000 "" "", as_alice (POST_water (Num 1) (Some "2024-01-20"))) in
  option_map p_water_interval_days (plant_by_id garden 1) = Some (Some 7) /\
  option_map p_repot_interval_days (plant_by_id garden 1) = Some (Some 365) /\
  option_map p_last_watered (plant_by_id (run utc_runtime garden [on_10]) 1)
  = Some (Some 1704844800000) /\
  option_map p_last_watered (plant_by_id (run utc_runtime garden [on_10; on_05]) 1)
  = Some (Some 1704844800000) /\
  option_map p_last_watered (plant_by_id (run utc_runtime garden [on_10; on_05; on_20]) 1)
  = Some (Some 1705708800000) /\
  body (resp (handle utc_runtime (run utc_runtime garden [on_10; on_05; on_20])
                     (outside 7000 "" "") (as_alice (GET_history (Num 1)))))
  = History [(watered, 1705708800000); (watered, 1704844800000);
             (watered, 1704412800000)].
Proof. repeat split. Qed.

(** The scenario of the specification: a watering on 2024-01-10, one
    backdated to 2024-01-05, one on 2024-01-20. *)
Lemma C1_witness :
  consistent garden /\
  let d := run utc_runtime garden
               [ (outside 4000 "" "", as_alice (POST_water (Num 1) (Some "2024-01-10")));
                 (outside 5000 "" "", as_alice (POST_water (Num 1) (Some "2024-01-05")));
                 (outside 6000 "" "", as_alice (POST_water (Num 1) (Some "2024-01-20"))) ] in
  forall p, In p (plants d) ->
    p_last_watered p = max_at (events_at (p_id p) (waterings d)) /\
    p_last_repotted p = max_at (events_at (p_id p) (repottings d)).
Proof.
  split.
  - exact garden_consistent.
  - exact (proj1 (C1_cached_last_event_is_max utc_runtime garden garden_consistent)
                 [ (outside 4000 "" "", as_alice (POST_water (Num 1) (Some "2024-01-10")));
                   (outside 5000 "" "", as_alice (POST_water (Num 1) (Some "2024-01-05")));
                   (outside 6000 "" "", as_alice (POST_water (Num 1) (Some "2024-01-20"))) ]).
Defined.

(* ===================================================================== *)
(** ** Ownership *)
(* ===================================================================== *)

Lemma requireAuth_authenticated (d : db) (c : option string) (uid : Z) (r : route)
      (next : identity -> outcome) :
  authenticated d c uid ->
  exists u, user_id u = uid /\ requireAuth d (mkRequest c r) next = next u.
Proof.
  intros (sid & mail & H). exists (mkIdentity uid mail).
  split; [reflexivity|]. unfold requireAuth. rewrite H. reflexivity.
Qed.

(** A record of another owner is not selected. *)
Lemma select_plant_foreign (d : db) (uid owner : Z) (R : plant) :
  keys_ok d -> In R (plants d) -> p_user_id R = Some owner -> owner <> uid ->
  select_plant d (Num (p_id R)) uid = None.
Proof.
  intros (Hnd & _) Hin Hown Hne. simpl.
  destruct (find _ (plants d)) as [q|] eqn:E; [|reflexivity].
  apply find_some in E. destruct E as [Hq Hp].
  apply andb_prop in Hp. destruct Hp as [Hid Hv]. apply Z.eqb_eq in Hid.
  assert (q = R) as -> by now apply (key_determines_row (plants d)).
  unfold visible_to in Hv. rewrite Hown in Hv. apply Z.eqb_eq in Hv. contradiction.
Qed.

(** C2: a record owned by a different user is not found by update, delete,
    either append or history, whoever the authenticated caller is, and the
    attempt returns the database as it was; the list of the caller's
    records does not show it. *)
Theorem C2_foreign_record_is_not_found (rt : runtime) (d : db) (e : env)
        (c : option string) (uid owner : Z) (R : plant) :
  keys_ok d ->
  authenticated d c uid ->
  In R (plants d) ->
  p_user_id R = Some owner ->
  owner <> uid ->
  (forall a, handle rt d e (mkRequest c (PUT_plant (Num (p_id R)) a)) = reply not_found d) /\
  handle rt d e (mkRequest c (DELETE_plant (Num (p_id R)))) = reply not_found d /\
  (forall date,
     handle rt d e (mkRequest c (POST_water (Num (p_id R)) date)) = reply not_found d) /\
  (forall date,
     handle rt d e (mkRequest c (POST_repot (Num (p_id R)) date)) = reply not_found d) /\
  handle rt d e (mkRequest c (GET_history (Num (p_id R)))) = reply not_found d /\
  (exists rows,
     handle rt d e (mkRequest c GET_plants) = reply (json 200 (Plants rows)) d /\
     ~ In R rows).
Proof.
  intros Hk Hauth Hin Hown Hne.
  pose proof (select_plant_foreign d uid owner R Hk Hin Hown Hne) as Hsel.
  unfold handle; simpl target.
  repeat split.
  - intros a.
    destruct (requireAuth_authenticated d c uid (PUT_plant (Num (p_id R)) a)
                (fun u => put_plant rt d u (Num (p_id R)) a) Hauth) as (u & Hu & ->).
    unfold put_plant. rewrite Hu, Hsel. reflexivity.
  - destruct (requireAuth_authenticated d c uid (DELETE_plant (Num (p_id R)))
                (fun u => delete_plant d u (Num (p_id R))) Hauth) as (u & Hu & ->).
    unfold delete_plant. rewrite Hu, Hsel. reflexivity.
  - intros date.
    destruct (requireAuth_authenticated d c uid (POST_water (Num (p_id R)) date)
                (fun u => post_water rt d e u (Num (p_id R)) date) Hauth) as (u & Hu & ->).
    unfold post_water. rewrite Hu, Hsel. reflexivity.
  - intros date.
    destruct (requireAuth_authenticated d c uid (POST_repot (Num (p_id R)) date)
                (fun u => post_repot rt d e u (Num (p_id R)) date) Hauth) as (u & Hu & ->).
    unfold post_repot. rewrite Hu, Hsel. reflexivity.
  - destruct (requireAuth_authenticated d c uid (GET_history (Num (p_id R)))
                (fun u => get_history d u (Num (p_id R))) Hauth) as (u & Hu & ->).
    unfold get_history. rewrite Hu, Hsel. reflexivity.
  - destruct (requireAuth_authenticated d c uid GET_plants
                (fun u => get_plants d u) Hauth) as (u & Hu & ->).
    unfold get_plants. rewrite Hu.
    eexists. split; [reflexivity|].
    intros HR. unfold order_by_desc in HR.
    apply (Permutation_in _ (js_sort_perm _ _)) in HR.
    apply filter_In in HR. destruct HR as [_ Hv].
    unfold visible_to in Hv. rewrite Hown in Hv. apply Z.eqb_eq in Hv. contradiction.
Qed.

(** The second user's attempts on the first user's plant. *)
Lemma C2_witness :
  (keys_ok garden /\ authenticated garden (Some "token-b") 2 /\
   In the_fern (plants garden) /\ p_user_id the_fern = Some 1 /\ 1 <> 2) /\
  handle utc_runtime garden (outside 4000 "" "") (as_bob (DELETE_plant (Num 1)))
  = reply not_found garden.
Proof.
  assert (Hk : keys_ok garden) by exact (proj1 garden_consistent).
  assert (Ha : authenticated garden (Some "token-b") 2).
  { exists "token-b", "b@x.test". intros r. reflexivity. }
  assert (Hin : In the_fern (plants garden)) by (left; reflexivity).
  assert (Hne : 1 <> 2) by lia.
  split.
  - repeat split;
      [exact (proj1 Hk) | apply Hk | apply Hk | apply Hk | exact Ha | exact Hin | exact Hne].
  - exact (proj1 (proj2 (C2_foreign_record_is_not_found utc_runtime garden
                           (outside 4000 "" "") (Some "token-b") 2 1 the_fern
                           Hk Ha Hin eq_refl Hne))).
Defined.

(* ===================================================================== *)
(** ** Sessions *)
(* ===================================================================== *)

Lemma find_redated (f : session -> Z) (sid : string) (ss : list session) :
  find (fun s => String.eqb (s_id s) sid)
       (map (fun s => mkSession (s_id s) (s_user_id s) (f s)) ss)
  = option_map (fun s => mkSession (s_id s) (s_user_id s) (f s))
               (find (fun s => String.eqb (s_id s) sid) ss).
Proof.
  induction ss as [|s ss IH]; simpl; [reflexivity|].
  destruct (String.eqb (s_id s) sid); [reflexivity | exact IH].
Qed.

Lemma requireAuth_sessions (d : db) (req : request) (next : identity -> outcome) :
  (forall u, sessions (state (next u)) = sessions d /\ set_cookie (resp (next u)) = None) ->
  sessions (state (requireAuth d req next)) = sessions d /\
  set_cookie (resp (requireAuth d req next)) = None.
Proof.
  intros H. destruct (requireAuth_cases d req next) as [->|[u ->]].
  - split; reflexivity.
  - apply H.
Qed.

Lemma handle_keeps_sessions (rt : runtime) (d : db) (e : env) (req : request) :
  session_route (target req) = false ->
  sessions (state (handle rt d e req)) = sessions d /\
  set_cookie (resp (handle rt d e req)) = None.
Proof.
  unfold handle.
  destruct (target req) as [c|c| | | |a|id a|id|id date|id date|id];
    simpl; try discriminate; intros _.
  - unfold get_me. destruct (getSession d req) as [[[sid uid] mail]|]; split; reflexivity.
  - apply requireAuth_sessions. intros u. split; reflexivity.
  - apply requireAuth_sessions. intros u. unfold post_plants.
    destruct (negb (text_truthy (name a))); split; reflexivity.
  - apply requireAuth_sessions. intros u. unfold put_plant.
    destruct (select_plant d id (user_id u)); split; reflexivity.
  - apply requireAuth_sessions. intros u. unfold delete_plant.
    destruct (select_plant d id (user_id u)); split; reflexivity.
  - apply requireAuth_sessions. intros u. unfold post_water.
    destruct (select_plant d id (user_id u)); [|split; reflexivity].
    destruct (normalizeDate rt (now e) date); [|split; reflexivity].
    destruct (newer _ _); split; reflexivity.
  - apply requireAuth_sessions. intros u. unfold post_repot.
    destruct (select_plant d id (user_id u)); [|split; reflexivity].
    destruct (normalizeDate rt (now e) date); [|split; reflexivity].
    destruct (newer _ _); split; reflexivity.
  - apply requireAuth_sessions. intros u. unfold get_history.
    destruct (select_plant d id (user_id u)); split; reflexivity.
Qed.

Lemma handle_cookie_age (rt : runtime) (d : db) (e : env) (req : request)
      (v : string) (age : Z) :
  set_cookie (resp (handle rt d e req)) = Some (v, age) -> age = cookie_maxAge.
Proof.
  destruct (session_route (target req)) eqn:Er.
  - unfold handle.
    destruct (target req) as [c|c| | | |a|id a|id|id date|id date|id];
      try discriminate Er.
    + unfold post_register.
      destruct (negb (text_truthy (email c)) || negb (text_truthy (password c)));
        [discriminate|].
      destruct (existsb _ (users d)); [discriminate|].
      destruct (createSession _ e (seq_users d + 1)) as [[sid d2]|ex]; simpl;
        [|discriminate].
      intros H. now injection H as _ <-.
    + unfold post_login.
      destruct (find _ (users d)) as [u|]; [|discriminate].
      destruct (negb _); [discriminate|].
      destruct (createSession d e (u_id u)) as [[sid d1]|ex]; simpl; [|discriminate].
      intros H. now injection H as _ <-.
    + discriminate.
  - destruct (handle_keeps_sessions rt d e req Er) as [_ ->]. discriminate.
Qed.

(** C3, as the code has it: resolution gives nothing when the request has
    no cookie or the token is not a key of [sessions]; it does not read
    [created_at], so the outcome is the same whatever the age of the
    session; and no route other than register, login and logout alters
    [sessions] or sets the cookie again, so resolving a session does not
    lengthen its life.  The thirty days are the [maxAge] of the cookie the
    two auth routes set, and only that. *)
Theorem C3_resolution_ignores_age (rt : runtime) (d : db) (e : env) (req : request) :
  (signedCookie req = None \/
   (forall s, In s (sessions d) -> Some (s_id s) <> signedCookie req) ->
   getSession d req = None) /\
  (forall f, getSession (redate_sessions f d) req = getSession d req) /\
  (session_route (target req) = false ->
   sessions (state (handle rt d e req)) = sessions d /\
   set_cookie (resp (handle rt d e req)) = None) /\
  (forall v age, set_cookie (resp (handle rt d e req)) = Some (v, age) ->
                 age = sessionTTLHours * 3600 * 1000).
Proof.
  split; [|split; [|split]].
  - intros [Hc|Hs]; unfold getSession.
    + rewrite Hc. reflexivity.
    + destruct (signedCookie req) as [sid|]; [|reflexivity].
      destruct (string_is_empty sid); [reflexivity|].
      destruct (find _ (sessions d)) as [s|] eqn:E; [|reflexivity].
      apply find_some in E. destruct E as [Hin Hid]. apply String.eqb_eq in Hid.
      exfalso. apply (Hs s Hin). now rewrite Hid.
  - intros f. unfold getSession, redate_sessions. simpl.
    destruct (signedCookie req) as [sid|]; [|reflexivity].
    destruct (string_is_empty sid); [reflexivity|].
    rewrite find_redated.
    destruct (find _ (sessions d)) as [s|]; reflexivity.
  - apply handle_keeps_sessions.
  - intros v age H. apply handle_cookie_age in H. exact H.
Qed.

(** A session made at time 1000 resolves one millisecond past its thirty
    days. *)
Lemma C3_session_past_ttl_resolves :
  let late := outside (1000 + sessionTTLHours * 3600 * 1000 + 1) "" "" in
  In (mkSession "token-a" 1 1000) (sessions garden) /\
  now late - 1000 > sessionTTLHours * 3600 * 1000 /\
  getSession garden (as_alice GET_me) = Some ("token-a", 1, "a@x.test") /\
  handle utc_runtime garden late (as_alice GET_me)
  = reply (json 200 (Me 1 "a@x.test")) garden.
Proof.
  repeat split. left. reflexivity.
Qed.

(* ===================================================================== *)
(** ** History *)
(* ===================================================================== *)

(** C4, as the code has it: the history of an accessible record lists all
    its events of both kinds, later ones first, and among events of one
    timestamp the waterings ahead of the repottings (two events of one kind
    and one timestamp are the same row); the order of insertion plays no
    part. *)
Theorem C4_history_later_first_waterings_ahead (d : db) (u : identity) (id : number)
        (p : plant) :
  select_plant d id (user_id u) = Some p ->
  exists rows,
    get_history d u id = reply (json 200 (History rows)) d /\
    Permutation rows (ledger_rows d (p_id p)) /\
    StronglySorted history_order rows.
Proof.
  intros Hsel. unfold get_history. rewrite Hsel.
  eexists. split; [reflexivity|]. split.
  - apply Permutation_trans
      with (select_events watered (p_id p) (waterings d) ++
            select_events repotted (p_id p) (repottings d)).
    + apply js_sort_perm.
    + apply Permutation_app; apply select_events_perm.
  - destruct (select_events_kind watered (p_id p) (waterings d)) as [ws ->].
    destruct (select_events_kind repotted (p_id p) (repottings d)) as [rs ->].
    apply js_sort_history_order, kinds_in_order.
Qed.

Lemma C4_witness :
  select_plant tended_garden (Num 1) 1 = Some tended_fern /\
  exists rows,
    get_history tended_garden (mkIdentity 1 "a@x.test") (Num 1)
    = reply (json 200 (History rows)) tended_garden /\
    Permutation rows (ledger_rows tended_garden 1) /\
    StronglySorted history_order rows.
Proof.
  split.
  - reflexivity.
  - exact (C4_history_later_first_waterings_ahead tended_garden
             (mkIdentity 1 "a@x.test") (Num 1) tended_fern eq_refl).
Defined.

(** A repotting and then a watering of the same day: the history lists the
    watering first, where the order of insertion has the repotting first;
    with the two appended the other way round the history is the same. *)
Lemma C4_tie_not_by_insertion :
  let t := 1704844800000 in
  let repot := (outside 4000 "" "", as_alice (POST_repot (Num 1) (Some "2024-01-10"))) in
  let water := (outside 5000 "" "", as_alice (POST_water (Num 1) (Some "2024-01-10"))) in
  let asked := as_alice (GET_history (Num 1)) in
  body (resp (handle utc_runtime (run utc_runtime garden [repot; water])
                     (outside 6000 "" "") asked))
  = History [(watered, t); (repotted, t)] /\
  history_by_insertion [(repotted, t); (watered, t)] = [(repotted, t); (watered, t)] /\
  body (resp (handle utc_runtime (run utc_runtime garden [water; repot])
                     (outside 6000 "" "") asked))
  = History [(watered, t); (repotted, t)].
Proof.
  repeat split.
Qed.

(* ===================================================================== *)
(** ** Creating a record *)
(* ===================================================================== *)

Lemma name_falsy (a : attrs) :
  text_truthy (name a) = false <-> name a = None \/ name a = Some "".
Proof.
  unfold text_truthy. destruct (name a) as [[|c s]|]; simpl; split; intros H; auto.
  - discriminate.
  - destruct H as [H|H]; discriminate.
Qed.

(** C5, as the code has it: creation is refused with 400 exactly when the
    name is absent or empty, and then nothing is stored; an interval that
    is omitted is stored as 7, respectively 365; an interval that is given
    and truthy is never refused: it goes through [Number], the number is
    stored when the coercion gives one, and NULL when it gives NaN. *)
Theorem C5_create_requires_name_and_coerces (rt : runtime) (d : db) (u : identity)
        (a : attrs) :
  (status (resp (post_plants rt d u a)) = 400 <-> name a = None \/ name a = Some "") /\
  (name a = None \/ name a = Some "" ->
   post_plants rt d u a = reply (json 400 (Error "name required")) d) /\
  (text_truthy (name a) = true ->
   exists row,
     post_plants rt d u a
     = reply (json 200 (Created (seq_plants d + 1)))
             (set_plants d (plants d ++ [row]) (seq_plants d + 1)) /\
     (water_interval_days a = JUndefined -> p_water_interval_days row = Some 7) /\
     (repot_interval_days a = JUndefined -> p_repot_interval_days row = Some 365) /\
     (ToBoolean (water_interval_days a) = true ->
      p_water_interval_days row = match ToNumber rt (water_interval_days a) with
                                  | Num z => Some z
                                  | NaN => None
                                  end) /\
     (ToBoolean (repot_interval_days a) = true ->
      p_repot_interval_days row = match ToNumber rt (repot_interval_days a) with
                                  | Num z => Some z
                                  | NaN => None
                                  end)).
Proof.
  split; [|split].
  - rewrite <- name_falsy. unfold post_plants.
    destruct (text_truthy (name a)); simpl; split; intros H;
      try reflexivity; discriminate.
  - intros H. apply name_falsy in H. unfold post_plants. rewrite H. reflexivity.
  - intros H. unfold post_plants. rewrite H. simpl negb. cbv iota.
    eexists. split; [reflexivity|]. simpl.
    repeat split.
    + intros ->. reflexivity.
    + intros ->. reflexivity.
    + intros Ht. unfold js_or. rewrite Ht. reflexivity.
    + intros Ht. unfold js_or. rewrite Ht. reflexivity.
Qed.

(** An interval given as text that is no number is accepted and stored as
    NULL. *)
Lemma C5_non_numeric_interval_stored_null :
  let a := mkAttrs (Some "Ivy") None None (JStr "weekly") JUndefined None in
  let o := handle utc_runtime garden (outside 4000 "" "") (as_alice (POST_plants a)) in
  ToNumber utc_runtime (JStr "weekly") = NaN /\
  resp o = json 200 (Created 2) /\
  option_map p_water_interval_days (plant_by_id (state o) 2) = Some None.
Proof.
  repeat split.
Qed.




(* ===================================================================== *)
(** ** Logging in *)
(* ===================================================================== *)

(** C6, as the code has it: an unknown handle and a wrong secret get the
    same answer, 401 with the same body and no cookie, and neither changes
    the database; the first is answered without the bcrypt comparison the
    second awaits, so no work is done to make the two take the same time. *)
Theorem C6_same_answer_without_the_compare (rt : runtime) (d : db) (e : env)
        (c : credentials) :
  (find (fun u => String.eqb (u_email u) (text_or_empty (email c))) (users d) = None ->
   post_login rt d e c = mkOutcome invalid_credentials d []) /\
  (forall u,
     find (fun u => String.eqb (u_email u) (text_or_empty (email c))) (users d) = Some u ->
     bcrypt_compare rt (text_or_empty (password c)) (u_password_hash u) = false ->
     post_login rt d e c
     = mkOutcome invalid_credentials d
                 [BcryptCompare (text_or_empty (password c)) (u_password_hash u)]).
Proof.
  split.
  - intros H. unfold post_login. rewrite H. reflexivity.
  - intros u H Hc. unfold post_login. rewrite H, Hc. reflexivity.
Qed.

(** An unknown handle is turned away at once; a known handle with a wrong
    secret only after the comparison. *)
Lemma C6_unknown_handle_skips_compare :
  let stranger := mkCredentials (Some "nobody@x.test") (Some "pw123") in
  let mistaken := mkCredentials (Some "a@x.test") (Some "pw124") in
  let e := outside 4000 "token-c" "" in
  handle utc_runtime garden e (mkRequest None (POST_login stranger))
  = mkOutcome invalid_credentials garden [] /\
  handle utc_runtime garden e (mkRequest None (POST_login mistaken))
  = mkOutcome invalid_credentials garden [BcryptCompare "pw124" "$2b$11$pw123"].
Proof.
  split; reflexivity.
Qed.

(* ===================================================================== *)
(** ** Updating a record *)
(* ===================================================================== *)

(** What an update leaves alone: the owner and the cached fields of the
    row, every text attribute the request does not carry, and an interval
    the request does not carry when the row holds a number. *)
Lemma put_plant_merges (rt : runtime) (d : db) (u : identity) (id : number) (a : attrs)
      (p : plant) :
  keys_ok d ->
  select_plant d id (user_id u) = Some p ->
  exists q,
    plant_by_id (state (put_plant rt d u id a)) (p_id p) = Some q /\
    p_user_id q = p_user_id p /\
    p_last_watered q = p_last_watered p /\
    p_last_repotted q = p_last_repotted p /\
    (name a = None -> p_name q = p_name p) /\
    (species a = None -> p_species q = p_species p) /\
    (location a = None -> p_location q = p_location p) /\
    (notes a = None -> p_notes q = p_notes p) /\
    (water_interval_days a = JUndefined ->
     forall z, p_water_interval_days p = Some z -> p_water_interval_days q = Some z) /\
    (repot_interval_days a = JUndefined ->
     forall z, p_repot_interval_days p = Some z -> p_repot_interval_days q = Some z).
Proof.
  intros (Hnd & _) Hsel.
  pose proof (select_plant_some _ _ _ _ Hsel) as (_ & Hin & _).
  unfold put_plant. rewrite Hsel. simpl state.
  exists (updated_row rt a p p). split.
  - apply plant_by_id_update; [reflexivity | now apply plant_by_id_key].
  - simpl. repeat split; try (intros ->; reflexivity).
    + intros -> z ->. reflexivity.
    + intros -> z ->. reflexivity.
Qed.

(** C7 at a record whose watering interval is NULL: an update that gives
    no interval stores 0 in its place. *)
Theorem C7_update_turns_null_interval_into_zero :
  let a := mkAttrs (Some "Ivy") None None (JStr "weekly") JUndefined None in
  let d1 := state (handle utc_runtime garden (outside 4000 "" "")
                          (as_alice (POST_plants a))) in
  let change := mkAttrs None None None JUndefined JUndefined (Some "by the window") in
  let o := handle utc_runtime d1 (outside 5000 "" "") (as_alice (PUT_plant (Num 2) change)) in
  option_map p_water_interval_days (plant_by_id d1 2) = Some None /\
  resp o = json 200 Ok /\
  option_map p_water_interval_days (plant_by_id (state o) 2) = Some (Some 0) /\
  option_map p_repot_interval_days (plant_by_id (state o) 2) = Some (Some 365).
Proof.
  repeat split.
Qed.

(* ===================================================================== *)
(** ** Deleting a record *)
(* ===================================================================== *)

Lemma retired_same (z : Z) (d d' : db) :
  plants d' = plants d -> seq_plants d' = seq_plants d -> retired z d -> retired z d'.
Proof. unfold retired. intros -> ->. auto. Qed.

Lemma retired_update (z z' : Z) (f : plant -> plant) (d d' : db) :
  (forall q, p_id (f q) = p_id q) ->
  plants d' = update_where_id z' f (plants d) -> seq_plants d' = seq_plants d ->
  retired z d -> retired z d'.
Proof.
  intros Hf Hp Hs [Hle Hno]. split.
  - now rewrite Hs.
  - rewrite Hp. intros q Hq. apply in_update_where_id in Hq.
    destruct Hq as [q0 [Hq0 ->]]. specialize (Hno q0 Hq0).
    destruct (p_id q0 =? z'); [rewrite Hf|]; exact Hno.
Qed.

Lemma handle_retired (rt : runtime) (d : db) (e : env) (req : request) (z : Z) :
  retired z d -> retired z (state (handle rt d e req)).
Proof.
  intros H. unfold handle.
  destruct (target req) as [c|c| | | |a|id a|id|id date|id date|id].
  - unfold post_register.
    destruct (negb (text_truthy (email c)) || negb (text_truthy (password c))); [exact H|].
    destruct (existsb _ (users d)); [exact H|].
    destruct (createSession _ e (seq_users d + 1)) as [[sid d2]|ex] eqn:E; simpl.
    + apply createSession_tables in E. simpl in E.
      destruct E as (_ & Hp & _ & _ & Hs & _). now apply (retired_same z d).
    + now apply (retired_same z d).
  - unfold post_login.
    destruct (find _ (users d)) as [usr|]; [|exact H].
    destruct (negb _); [exact H|].
    destruct (createSession d e (u_id usr)) as [[sid d1]|ex] eqn:E; simpl; [|exact H].
    apply createSession_tables in E. destruct E as (_ & Hp & _ & _ & Hs & _).
    now apply (retired_same z d).
  - unfold post_logout, destroySession. simpl.
    destruct (signedCookie req) as [sid|]; [|exact H].
    destruct (string_is_empty sid); [exact H|]. now apply (retired_same z d).
  - unfold get_me. destruct (getSession d req) as [[[sid uid] mail]|]; exact H.
  - destruct (requireAuth_cases d req (fun u => get_plants d u)) as [->|[u ->]]; exact H.
  - destruct (requireAuth_cases d req (fun u => post_plants rt d u a)) as [->|[u ->]];
      [exact H|].
    unfold post_plants. destruct (negb (text_truthy (name a))); [exact H|].
    destruct H as [Hle Hno]. split; simpl; [lia|].
    intros q Hq. apply in_app_or in Hq. destruct Hq as [Hq|[<-|[]]].
    + now apply Hno.
    + simpl. lia.
  - destruct (requireAuth_cases d req (fun u => put_plant rt d u id a)) as [->|[u ->]];
      [exact H|].
    unfold put_plant. destruct (select_plant d id (user_id u)) as [p|]; [|exact H].
    simpl. now apply (retired_update z (p_id p) (updated_row rt a p) d).
  - destruct (requireAuth_cases d req (fun u => delete_plant d u id)) as [->|[u ->]];
      [exact H|].
    unfold delete_plant. destruct (select_plant d id (user_id u)) as [p|]; [|exact H].
    destruct H as [Hle Hno]. split; simpl; [exact Hle|].
    intros q Hq. apply filter_In in Hq. apply Hno. tauto.
  - destruct (requireAuth_cases d req (fun u => post_water rt d e u id date)) as [->|[u ->]];
      [exact H|].
    unfold post_water. destruct (select_plant d id (user_id u)) as [p|]; [|exact H].
    destruct (normalizeDate rt (now e) date) as [at_|ex]; [|exact H].
    destruct (newer at_ (p_last_watered p)); simpl state.
    + now apply (retired_update z (p_id p) (set_last_watered at_) d).
    + now apply (retired_same z d).
  - destruct (requireAuth_cases d req (fun u => post_repot rt d e u id date)) as [->|[u ->]];
      [exact H|].
    unfold post_repot. destruct (select_plant d id (user_id u)) as [p|]; [|exact H].
    destruct (normalizeDate rt (now e) date) as [at_|ex]; [|exact H].
    destruct (newer at_ (p_last_repotted p)); simpl state.
    + now apply (retired_update z (p_id p) (set_last_repotted at_) d).
    + now apply (retired_same z d).
  - destruct (requireAuth_cases d req (fun u => get_history d u id)) as [->|[u ->]];
      [exact H|].
    unfold get_history. destruct (select_plant d id (user_id u)); exact H.
Qed.

Lemma run_retired (rt : runtime) (rs : list (env * request)) (d : db) (z : Z) :
  retired z d -> retired z (run rt d rs).
Proof.
  revert d. induction rs as [|[e req] rs IH]; intros d H; simpl.
  - exact H.
  - apply IH. now apply handle_retired.
Qed.

Lemma select_plant_retired (d : db) (z uid : Z) :
  retired z d -> select_plant d (Num z) uid = None.
Proof.
  intros [_ Hno]. simpl.
  destruct (find _ (plants d)) as [q|] eqn:E; [|reflexivity].
  apply find_some in E. destruct E as [Hq Hp].
  apply andb_prop in Hp. destruct Hp as [Hid _]. apply Z.eqb_eq in Hid.
  exfalso. now apply (Hno q).
Qed.

Lemma filter_delete_other (z z' : Z) (es : list event) :
  z' <> z ->
  filter (fun e => e_plant_id e =? z') (filter (fun e => negb (e_plant_id e =? z)) es)
  = filter (fun e => e_plant_id e =? z') es.
Proof.
  intros Hne. induction es as [|e es IH]; simpl; [reflexivity|].
  destruct (e_plant_id e =? z) eqn:E1; simpl.
  - apply Z.eqb_eq in E1.
    destruct (e_plant_id e =? z') eqn:E2; [apply Z.eqb_eq in E2; lia | exact IH].
  - destruct (e_plant_id e =? z'); [f_equal|]; exact IH.
Qed.

(** C8: a successful delete removes the record's waterings, then its
    repottings, and only then the record; the events of every other record
    stay as they were; and from then on, whatever requests follow, the id
    selects no record for any user and its history is not found. *)
Theorem C8_delete_cascades (rt : runtime) (d : db) (u : identity) (id : number)
        (p : plant) :
  keys_ok d ->
  select_plant d id (user_id u) = Some p ->
  let z := p_id p in
  let d2 := delete_repottings z (delete_waterings z d) in
  let d3 := delete_plant_row z d2 in
  delete_plant d u id = reply (json 200 Ok) d3 /\
  (events_at z (waterings d2) = [] /\ events_at z (repottings d2) = [] /\
   plants d2 = plants d /\ In p (plants d2)) /\
  (forall q, In q (plants d3) -> p_id q <> z) /\
  (forall z', z' <> z ->
     filter (fun e => e_plant_id e =? z') (waterings d3)
     = filter (fun e => e_plant_id e =? z') (waterings d) /\
     filter (fun e => e_plant_id e =? z') (repottings d3)
     = filter (fun e => e_plant_id e =? z') (repottings d)) /\
  (forall rs u',
     select_plant (run rt d3 rs) (Num z) (user_id u') = None /\
     get_history (run rt d3 rs) u' (Num z) = reply not_found (run rt d3 rs)).
Proof.
  intros (Hnd & Hp & _) Hsel z d2 d3.
  pose proof (select_plant_some _ _ _ _ Hsel) as (_ & Hin & _).
  assert (Hgone : forall q, In q (plants d3) -> p_id q <> z).
  { intros q Hq. simpl in Hq. apply filter_In in Hq. destruct Hq as [_ Hq].
    now apply negb_true_iff, Z.eqb_neq in Hq. }
  split; [|split; [|split; [|split]]].
  - unfold delete_plant. rewrite Hsel. reflexivity.
  - simpl. rewrite !events_at_delete_same. auto.
  - exact Hgone.
  - intros z' Hne. simpl. split; now apply filter_delete_other.
  - intros rs u'.
    assert (Hr : retired z (run rt d3 rs)).
    { apply run_retired. split; [simpl; now apply Hp | exact Hgone]. }
    split.
    + now apply select_plant_retired.
    + unfold get_history. now rewrite select_plant_retired.
Qed.

(** The first user deletes the fern of the tended garden. *)
Lemma C8_witness :
  (keys_ok tended_garden /\ select_plant tended_garden (Num 1) 1 = Some tended_fern) /\
  let d3 := delete_plant_row 1 (delete_repottings 1 (delete_waterings 1 tended_garden)) in
  delete_plant tended_garden (mkIdentity 1 "a@x.test") (Num 1) = reply (json 200 Ok) d3 /\
  forall rs u',
    select_plant (run utc_runtime d3 rs) (Num 1) (user_id u') = None /\
    get_history (run utc_runtime d3 rs) u' (Num 1)
    = reply not_found (run utc_runtime d3 rs).
Proof.
  assert (Hk : keys_ok tended_garden).
  { apply run_consistent, garden_consistent. }
  pose proof (C8_delete_cascades utc_runtime tended_garden (mkIdentity 1 "a@x.test")
                (Num 1) tended_fern Hk eq_refl) as H.
  split.
  - split; [exact Hk | reflexivity].
  - split; [exact (proj1 H) | exact (proj2 (proj2 (proj2 (proj2 H))))].
Defined.

(* ===================================================================== *)
(** ** The date of an append *)
(* ===================================================================== *)

(** No date, or an empty one, is the current time. *)
Lemma normalizeDate_absent (rt : runtime) (t : Z) :
  normalizeDate rt t None = Normal t /\ normalizeDate rt t (Some "") = Normal t.
Proof. split; reflexivity. Qed.

(** Text that is no bare calendar date and that [Date] cannot parse is the
    current time. *)
Lemma normalizeDate_unparseable (rt : runtime) (t : Z) (s : string) :
  anchored_match date_only_pattern s = false ->
  Date_parse rt s = None ->
  normalizeDate rt t (Some s) = Normal t.
Proof.
  intros Hre Hp. unfold normalizeDate. rewrite Hre, Hp.
  destruct (string_is_empty s); reflexivity.
Qed.

(** A bare calendar date is midnight of that day in the server's time. *)
Lemma normalizeDate_calendar_date (rt : runtime) (t : Z) :
  normalizeDate rt t (Some "2024-01-10")
  = toISOString (TimeClip (19732 * msPerDay - LocalTZA rt (19732 * msPerDay))).
Proof. reflexivity. Qed.

(** C9 at the date 2024-13-45: it has the shape of a calendar date, so it
    is not handed to the lenient branch; the Date built from it is invalid,
    [toISOString] throws, and the append is answered 500 instead of taking
    the current time. *)
Theorem C9_invalid_calendar_date_throws :
  (forall rt t, normalizeDate rt t (Some "2024-13-45") = Throw RangeError) /\
  handle utc_runtime garden (outside 4000 "" "")
         (as_alice (POST_water (Num 1) (Some "2024-13-45")))
  = reply (json 500 (Uncaught RangeError)) garden /\
  handle utc_runtime garden (outside 4000 "" "")
         (as_alice (POST_water (Num 1) (Some "not a date")))
  = reply (json 200 (OkAt 4000))
          (state (handle utc_runtime garden (outside 4000 "" "")
                         (as_alice (POST_water (Num 1) None)))).
Proof.
  repeat split.
Qed.

(* ===================================================================== *)
(** ** The client's escaping *)
(* ===================================================================== *)

Lemma entity_cases (c : ascii) :
  (c = "&"%char /\ entity c = Some "&amp;") \/
  (c = "<"%char /\ entity c = Some "&lt;") \/
  (c = ">"%char /\ entity c = Some "&gt;") \/
  (c = quot /\ entity c = Some "&quot;") \/
  (c = "'"%char /\ entity c = Some "&#39;") \/
  (entity c = None /\ c <> "&"%char /\ c <> "<"%char /\ c <> ">"%char /\
   c <> quot /\ c <> "'"%char).
Proof.
  unfold entity.
  destruct (Ascii.eqb_spec c "&"); [subst; auto|].
  destruct (Ascii.eqb_spec c "<"); [subst; auto|].
  destruct (Ascii.eqb_spec c ">"); [subst; auto 6|].
  destruct (Ascii.eqb_spec c quot); [subst; auto 7|].
  destruct (Ascii.eqb_spec c "'"); [subst; auto 8|].
  auto 12.
Qed.

Lemma read_entities_other (c : ascii) (r : string) :
  c <> "&"%char -> read_entities (String c r) = String c (read_entities r).
Proof.
  intros Hc.
  destruct c as [b0 b1 b2 b3 b4 b5 b6 b7].
  destruct b0, b1, b2, b3, b4, b5, b6, b7; try reflexivity.
  exfalso. apply Hc. reflexivity.
Qed.

Lemma read_entities_replace (s : string) : read_entities (replace_special s) = s.
Proof.
  induction s as [|c s IH]; [reflexivity|].
  simpl replace_special.
  destruct (entity_cases c)
    as [[-> ->]|[[-> ->]|[[-> ->]|[[-> ->]|[[-> ->]|[-> [Hc _]]]]]]].
  - simpl. now rewrite IH.
  - simpl. now rewrite IH.
  - simpl. now rewrite IH.
  - simpl. now rewrite IH.
  - simpl. now rewrite IH.
  - rewrite read_entities_other by exact Hc. now rewrite IH.
Qed.

(** X1: the text [escapeHtml] gives holds no angle bracket, no double quote
    and no apostrophe, whatever the input. *)
Theorem escapeHtml_leaves_no_markup (s : option string) :
  Forall (fun c => c <> "<"%char /\ c <> ">"%char /\ c <> quot /\ c <> "'"%char)
         (list_ascii_of_string (escapeHtml s)).
Proof.
  unfold escapeHtml. induction (text_or_empty s) as [|c r IH]; simpl.
  - constructor.
  - destruct (entity_cases c)
      as [[-> ->]|[[-> ->]|[[-> ->]|[[-> ->]|[[-> ->]|[-> [_ Hc]]]]]]]; simpl;
      repeat (constructor; [repeat split; discriminate|]); try exact IH.
    constructor; [exact Hc | exact IH].
Qed.

(** X2: escaping loses nothing: reading the entities back gives the input
    again, so two different texts never escape to the same text; and a text
    without any of the five characters is left as it is. *)
Theorem escapeHtml_reads_back (s : string) :
  read_entities (escapeHtml (Some s)) = s /\
  (forall s', escapeHtml (Some s) = escapeHtml (Some s') -> s = s') /\
  (Forall (fun c => entity c = None) (list_ascii_of_string s) ->
   escapeHtml (Some s) = s).
Proof.
  unfold escapeHtml. simpl text_or_empty. split; [|split].
  - apply read_entities_replace.
  - intros s' H. rewrite <- (read_entities_replace s), <- (read_entities_replace s').
    now rewrite H.
  - induction s as [|c r IH]; simpl; intros H; [reflexivity|].
    inversion H as [|c' l Hc Hr]; subst. rewrite Hc. f_equal. now apply IH.
Qed.

(* ===================================================================== *)
(** ** The access guard *)
(* ===================================================================== *)

Lemma requireAuth_resolved (d : db) (req : request) (next : identity -> outcome)
      (sid : string) (uid : Z) (mail : string) :
  getSession d req = Some (sid, uid, mail) ->
  requireAuth d req next = next (mkIdentity uid mail).
Proof. intros H. unfold requireAuth. now rewrite H. Qed.

(** X3: a route behind the guard (and [GET /api/me]) answers 401 exactly
    when the session of the request does not resolve, and then it leaves
    the database as it was and awaits nothing. *)
Theorem guard_answers_401_iff_unresolved (rt : runtime) (d : db) (e : env)
        (req : request) :
  guarded_route (target req) = true ->
  (status (resp (handle rt d e req)) = 401 <-> getSession d req = None) /\
  (getSession d req = None -> handle rt d e req = reply unauthorized d).
Proof.
  intros Hg.
  assert (Hnone : getSession d req = None -> handle rt d e req = reply unauthorized d).
  { intros H. unfold handle.
    destruct (target req); try discriminate Hg;
      unfold requireAuth, get_me; rewrite H; reflexivity. }
  split; [|exact Hnone]. split.
  - intros Hs. destruct (getSession d req) as [[[sid uid] mail]|] eqn:E; [|reflexivity].
    exfalso. revert Hs. unfold handle.
    destruct (target req) as [c|c| | | |a|id a|id|id date|id date|id];
      try discriminate Hg.
    + unfold get_me. rewrite E. discriminate.
    + rewrite (requireAuth_resolved _ _ _ _ _ _ E). discriminate.
    + rewrite (requireAuth_resolved _ _ _ _ _ _ E). unfold post_plants.
      destruct (negb _); discriminate.
    + rewrite (requireAuth_resolved _ _ _ _ _ _ E). unfold put_plant.
      destruct (select_plant _ _ _); discriminate.
    + rewrite (requireAuth_resolved _ _ _ _ _ _ E). unfold delete_plant.
      destruct (select_plant _ _ _); discriminate.
    + rewrite (requireAuth_resolved _ _ _ _ _ _ E). unfold post_water.
      destruct (select_plant _ _ _); [|discriminate].
      destruct (normalizeDate _ _ _); discriminate.
    + rewrite (requireAuth_resolved _ _ _ _ _ _ E). unfold post_repot.
      destruct (select_plant _ _ _); [|discriminate].
      destruct (normalizeDate _ _ _); discriminate.
    + rewrite (requireAuth_resolved _ _ _ _ _ _ E). unfold get_history.
      destruct (select_plant _ _ _); discriminate.
  - intros H. rewrite (Hnone H). reflexivity.
Qed.

(** A request without a cookie asks for the plants of the garden. *)
Lemma guard_answers_401_witness :
  guarded_route GET_plants = true /\
  (status (resp (handle utc_runtime garden (outside 4000 "" "")
                        (mkRequest None GET_plants))) = 401
   <-> getSession garden (mkRequest None GET_plants) = None).
Proof.
  split.
  - reflexivity.
  - exact (proj1 (guard_answers_401_iff_unresolved utc_runtime garden
                    (outside 4000 "" "") (mkRequest None GET_plants) eq_refl)).
Defined.

(* ===================================================================== *)
(** ** Accounts *)
(* ===================================================================== *)

Lemma handle_keeps_accounts (rt : runtime) (d : db) (e : env) (req : request) :
  session_route (target req) = false ->
  users (state (handle rt d e req)) = users d /\
  sessions (state (handle rt d e req)) = sessions d /\
  seq_users (state (handle rt d e req)) = seq_users d.
Proof.
  unfold handle.
  destruct (target req) as [c|c| | | |a|id a|id|id date|id date|id];
    simpl; try discriminate; intros _.
  - unfold get_me. destruct (getSession d req) as [[[sid uid] mail]|]; auto.
  - destruct (requireAuth_cases d req (fun u => get_plants d u)) as [->|[u ->]]; auto.
  - destruct (requireAuth_cases d req (fun u => post_plants rt d u a)) as [->|[u ->]];
      [auto|]. unfold post_plants. destruct (negb _); auto.
  - destruct (requireAuth_cases d req (fun u => put_plant rt d u id a)) as [->|[u ->]];
      [auto|]. unfold put_plant. destruct (select_plant _ _ _); auto.
  - destruct (requireAuth_cases d req (fun u => delete_plant d u id)) as [->|[u ->]];
      [auto|]. unfold delete_plant. destruct (select_plant _ _ _); auto.
  - destruct (requireAuth_cases d req (fun u => post_water rt d e u id date))
      as [->|[u ->]]; [auto|]. unfold post_water.
    destruct (select_plant _ _ _); [|auto].
    destruct (normalizeDate _ _ _); [|auto]. destruct (newer _ _); auto.
  - destruct (requireAuth_cases d req (fun u => post_repot rt d e u id date))
      as [->|[u ->]]; [auto|]. unfold post_repot.
    destruct (select_plant _ _ _); [|auto].
    destruct (normalizeDate _ _ _); [|auto]. destruct (newer _ _); auto.
  - destruct (requireAuth_cases d req (fun u => get_history d u id)) as [->|[u ->]];
      [auto|]. unfold get_history. destruct (select_plant _ _ _); auto.
Qed.

Lemma accounts_ok_same (d d' : db) :
  users d' = users d -> sessions d' = sessions d -> seq_users d' = seq_users d ->
  accounts_ok d -> accounts_ok d'.
Proof. unfold accounts_ok. intros -> -> ->. auto. Qed.

Lemma NoDup_snoc {A : Type} (l : list A) (x : A) :
  NoDup l -> ~ In x l -> NoDup (l ++ [x]).
Proof.
  intros Hnd Hx. apply Permutation_NoDup with (x :: l).
  - apply Permutation_cons_append.
  - now constructor.
Qed.

Lemma existsb_email_false (mail : string) (us : list user) :
  existsb (fun u => String.eqb (u_email u) mail) us = false ->
  ~ In mail (map u_email us).
Proof.
  intros H Hin. apply in_map_iff in Hin. destruct Hin as [u [Hm Hu]].
  assert (Ht : existsb (fun u => String.eqb (u_email u) mail) us = true).
  { apply existsb_exists. exists u. split; [exact Hu | now apply String.eqb_eq]. }
  congruence.
Qed.

Lemma existsb_token_false (tok : string) (ss : list session) :
  existsb (fun s => String.eqb (s_id s) tok) ss = false ->
  ~ In tok (map s_id ss).
Proof.
  intros H Hin. apply in_map_iff in Hin. destruct Hin as [s [Hm Hs]].
  assert (Ht : existsb (fun s => String.eqb (s_id s) tok) ss = true).
  { apply existsb_exists. exists s. split; [exact Hs | now apply String.eqb_eq]. }
  congruence.
Qed.

(** A session added for an existing user keeps the accounts in order. *)
Lemma createSession_accounts_ok (d : db) (e : env) (uid : Z) (sid : string) (d' : db) :
  accounts_ok d ->
  (exists u, In u (users d) /\ u_id u = uid) ->
  createSession d e uid = Normal (sid, d') ->
  accounts_ok d'.
Proof.
  intros (Hid & Hle & Hmail & Htok & Hfk) Hu. unfold createSession.
  destruct (existsb _ (sessions d)) eqn:E; [discriminate|].
  intros H. injection H as <- <-.
  unfold accounts_ok. simpl. repeat split; try assumption.
  - rewrite map_app. simpl. apply NoDup_snoc; [exact Htok|].
    now apply existsb_token_false.
  - intros s Hs. apply in_app_or in Hs. destruct Hs as [Hs|[<-|[]]].
    + now apply Hfk.
    + exact Hu.
Qed.

Lemma handle_accounts_ok (rt : runtime) (d : db) (e : env) (req : request) :
  accounts_ok d -> accounts_ok (state (handle rt d e req)).
Proof.
  intros H.
  destruct (session_route (target req)) eqn:Er.
  - pose proof H as (Hid & Hle & Hmail & Htok & Hfk).
    unfold handle.
    destruct (target req) as [c|c| | | |a|id a|id|id date|id date|id];
      try discriminate Er.
    + unfold post_register.
      destruct (negb (text_truthy (email c)) || negb (text_truthy (password c)));
        [exact H|].
      destruct (existsb _ (users d)) eqn:Ee; [exact H|].
      set (uid := seq_users d + 1).
      set (d1 := set_users d _ uid).
      assert (H1 : accounts_ok d1).
      { unfold accounts_ok, d1. simpl. repeat split.
        - rewrite map_app. simpl. apply NoDup_snoc; [exact Hid|].
          intros Hin. apply in_map_iff in Hin. destruct Hin as [u [Hu Hin]].
          specialize (Hle u Hin). unfold uid in Hu. lia.
        - intros u Hu. apply in_app_or in Hu. destruct Hu as [Hu|[<-|[]]].
          + specialize (Hle u Hu). unfold uid. lia.
          + simpl. lia.
        - rewrite map_app. simpl. apply NoDup_snoc; [exact Hmail|].
          now apply existsb_email_false.
        - exact Htok.
        - intros s Hs. destruct (Hfk s Hs) as [u [Hu Hus]].
          exists u. split; [apply in_or_app; now left | exact Hus]. }
      destruct (createSession d1 e uid) as [[sid d2]|ex] eqn:Ec; simpl; [|exact H1].
      apply (createSession_accounts_ok d1 e uid sid d2 H1); [|exact Ec].
      eexists. split; [apply in_or_app; right; left; reflexivity | reflexivity].
    + unfold post_login.
      destruct (find _ (users d)) as [u|] eqn:Ef; [|exact H].
      destruct (negb _); [exact H|].
      destruct (createSession d e (u_id u)) as [[sid d1]|ex] eqn:Ec; simpl; [|exact H].
      apply (createSession_accounts_ok d e (u_id u) sid d1 H); [|exact Ec].
      exists u. split; [now apply find_some in Ef | reflexivity].
    + unfold post_logout, destroySession. simpl.
      destruct (signedCookie req) as [sid|]; [|exact H].
      destruct (string_is_empty sid); [exact H|].
      unfold accounts_ok. simpl. repeat split; try assumption.
      * clear - Htok. induction (sessions d) as [|s ss IH]; simpl; [constructor|].
        inversion Htok as [|x l Hnotin Hnd]; subst.
        destruct (negb (String.eqb (s_id s) sid)); simpl; [|now apply IH].
        constructor; [|now apply IH].
        intros Hin. apply Hnotin. apply in_map_iff in Hin.
        destruct Hin as [s' [Hs' Hin]]. apply filter_In in Hin.
        rewrite <- Hs'. apply in_map. tauto.
      * intros s Hs. apply filter_In in Hs. apply Hfk. tauto.
  - destruct (handle_keeps_accounts rt d e req Er) as (Hu & Hs & Hq).
    now apply (accounts_ok_same d).
Qed.

Lemma accounts_ok_empty : accounts_ok empty_db.
Proof.
  unfold accounts_ok. simpl. repeat split; try constructor; intros ? [].
Qed.

(** X4: every sequence of requests keeps the accounts in order: no two
    users share an id or an email, no two sessions share a token, and every
    session belongs to a user who exists. *)
Theorem run_accounts_ok (rt : runtime) (rs : list (env * request)) (d : db) :
  accounts_ok d -> accounts_ok (run rt d rs).
Proof.
  revert d. induction rs as [|[e req] rs IH]; intros d H; simpl.
  - exact H.
  - apply IH. now apply handle_accounts_ok.
Qed.

Lemma run_accounts_ok_witness :
  accounts_ok empty_db /\ accounts_ok garden.
Proof.
  split.
  - exact accounts_ok_empty.
  - exact (run_accounts_ok utc_runtime
             [ (outside 1000 "token-a" "pw123", mkRequest None (POST_register alice));
               (outside 2000 "token-b" "pw456", mkRequest None (POST_register bob));
               (outside 3000 "" "", as_alice (POST_plants fern)) ]
             empty_db accounts_ok_empty).
Defined.

Lemma find_key {A : Type} (key : A -> Z) (l : list A) (x : A) :
  NoDup (map key l) -> In x l ->
  find (fun y => key y =? key x) l = Some x.
Proof.
  induction l as [|y l IH]; simpl; intros Hnd Hin; [contradiction|].
  inversion Hnd as [|k ks Hnotin Hnd']; subst.
  destruct Hin as [->|Hin].
  - now rewrite Z.eqb_refl.
  - destruct (key y =? key x) eqn:E; [|now apply IH].
    apply Z.eqb_eq in E. exfalso. apply Hnotin. rewrite E. now apply in_map.
Qed.

Lemma find_token (ss : list session) (s : session) :
  NoDup (map s_id ss) -> In s ss ->
  find (fun x => String.eqb (s_id x) (s_id s)) ss = Some s.
Proof.
  induction ss as [|y l IH]; simpl; intros Hnd Hin; [contradiction|].
  inversion Hnd as [|k ks Hnotin Hnd']; subst.
  destruct Hin as [->|Hin].
  - now rewrite String.eqb_refl.
  - destruct (String.eqb (s_id y) (s_id s)) eqn:E; [|now apply IH].
    apply String.eqb_eq in E. exfalso. apply Hnotin. rewrite E. now apply in_map.
Qed.

Lemma find_email (us : list user) (u : user) :
  NoDup (map u_email us) -> In u us ->
  find (fun x => String.eqb (u_email x) (u_email u)) us = Some u.
Proof.
  induction us as [|y l IH]; simpl; intros Hnd Hin; [contradiction|].
  inversion Hnd as [|k ks Hnotin Hnd']; subst.
  destruct Hin as [->|Hin].
  - now rewrite String.eqb_refl.
  - destruct (String.eqb (u_email y) (u_email u)) eqn:E; [|now apply IH].
    apply String.eqb_eq in E. exfalso. apply Hnotin. rewrite E. now apply in_map.
Qed.

Lemma string_is_empty_false (s : string) : s <> "" -> string_is_empty s = false.
Proof. destruct s; [congruence | reflexivity]. Qed.

Lemma getSession_of_row (d : db) (s : session) (u : user) (r : route) :
  NoDup (map s_id (sessions d)) -> NoDup (map u_id (users d)) ->
  In s (sessions d) -> In u (users d) -> u_id u = s_user_id s -> s_id s <> "" ->
  getSession d (mkRequest (Some (s_id s)) r) = Some (s_id s, u_id u, u_email u).
Proof.
  intros Htok Hid Hs Hu Hus Hne. unfold getSession. simpl.
  rewrite (string_is_empty_false _ Hne), (find_token _ _ Htok Hs).
  rewrite <- Hus, (find_key u_id _ _ Hid Hu). reflexivity.
Qed.

(** X5: with the accounts in order, a stored session whose token is not
    empty resolves, on any route, to the user it was made for; and what
    resolution returns is always a stored session and its user. *)
Theorem stored_session_resolves (d : db) (r : route) :
  accounts_ok d ->
  (forall s, In s (sessions d) -> s_id s <> "" ->
     exists u, In u (users d) /\ u_id u = s_user_id s /\
               getSession d (mkRequest (Some (s_id s)) r)
               = Some (s_id s, u_id u, u_email u)) /\
  (forall c sid uid mail,
     getSession d (mkRequest c r) = Some (sid, uid, mail) ->
     c = Some sid /\
     exists s u, In s (sessions d) /\ In u (users d) /\ s_id s = sid /\
                 s_user_id s = uid /\ u_id u = uid /\ u_email u = mail).
Proof.
  intros (Hid & _ & _ & Htok & Hfk). split.
  - intros s Hs Hne. destruct (Hfk s Hs) as [u [Hu Hus]].
    exists u. repeat split; try assumption. now apply getSession_of_row.
  - intros c sid uid mail. unfold getSession. simpl.
    destruct c as [tok|]; [|discriminate].
    destruct (string_is_empty tok); [discriminate|].
    destruct (find _ (sessions d)) as [s|] eqn:Es; [|discriminate].
    destruct (find _ (users d)) as [u|] eqn:Eu; [|discriminate].
    intros H. injection H as <- <- <-.
    apply find_some in Es. destruct Es as [Hs Hsid]. apply String.eqb_eq in Hsid.
    apply find_some in Eu. destruct Eu as [Hu Huid]. apply Z.eqb_eq in Huid.
    split; [now rewrite Hsid|]. exists s, u. auto 10.
Qed.

Lemma garden_accounts_ok : accounts_ok garden.
Proof.
  apply handle_accounts_ok, handle_accounts_ok, handle_accounts_ok, accounts_ok_empty.
Qed.

(** The second user's session in the garden. *)
Lemma stored_session_resolves_witness :
  accounts_ok garden /\
  exists u, In u (users garden) /\ u_id u = 2 /\
            getSession garden (as_bob GET_plants) = Some ("token-b", u_id u, u_email u).
Proof.
  split; [exact garden_accounts_ok|].
  apply (proj1 (stored_session_resolves garden GET_plants garden_accounts_ok)
               (mkSession "token-b" 2 2000)).
  - right. left. reflexivity.
  - discriminate.
Defined.

(* ===================================================================== *)
(** ** Registering, logging in, logging out *)
(* ===================================================================== *)

Lemma find_app_none {A : Type} (f : A -> bool) (l : list A) (x : A) :
  (forall y, In y l -> f y = false) ->
  find f (l ++ [x]) = if f x then Some x else None.
Proof.
  intros H. induction l as [|y l IH]; simpl.
  - reflexivity.
  - rewrite (H y) by now left. apply IH. intros z Hz. apply H. now right.
Qed.

Lemma find_app_some {A : Type} (f : A -> bool) (l l' : list A) (x : A) :
  find f l = Some x -> find f (l ++ l') = Some x.
Proof.
  induction l as [|y l IH]; simpl; [discriminate|].
  destruct (f y); [auto | exact IH].
Qed.

(** X6: a registration with an email no user has and a token no session
    has is answered 200 with the token as the session cookie; it appends
    one user, who holds the hash bcrypt gave and not the password, and one
    session; the cookie then resolves to the new user, and nothing else of
    the database changes. *)
Theorem register_then_resolve (d : db) (e : env) (mail pw : string) (r : route) :
  accounts_ok d ->
  mail <> "" -> pw <> "" -> randomBytes e <> "" ->
  (forall u, In u (users d) -> u_email u <> mail) ->
  (forall s, In s (sessions d) -> s_id s <> randomBytes e) ->
  let o := post_register d e (mkCredentials (Some mail) (Some pw)) in
  let uid := seq_users d + 1 in
  resp o = mkResponse 200 Ok (Some (randomBytes e, cookie_maxAge)) false /\
  awaited o = [BcryptHash pw 11] /\
  users (state o) = users d ++ [mkUser uid mail (bcrypt_hash e) (now e)] /\
  sessions (state o) = sessions d ++ [mkSession (randomBytes e) uid (now e)] /\
  getSession (state o) (mkRequest (Some (randomBytes e)) r)
  = Some (randomBytes e, uid, mail) /\
  plants (state o) = plants d /\ waterings (state o) = waterings d /\
  repottings (state o) = repottings d.
Proof.
  intros (Hid & Hle & _) Hmail Hpw Htok Hfresh Hnew o uid.
  assert (Ee : existsb (fun u => String.eqb (u_email u) mail) (users d) = false).
  { destruct (existsb _ (users d)) eqn:E; [|reflexivity].
    apply existsb_exists in E. destruct E as [u [Hu Hm]]. apply String.eqb_eq in Hm.
    exfalso. now apply (Hfresh u). }
  assert (Es : existsb (fun s => String.eqb (s_id s) (randomBytes e)) (sessions d) = false).
  { destruct (existsb _ (sessions d)) eqn:E; [|reflexivity].
    apply existsb_exists in E. destruct E as [s [Hs Hm]]. apply String.eqb_eq in Hm.
    exfalso. now apply (Hnew s). }
  assert (Ho : o = mkOutcome (session_cookie (randomBytes e))
                     (set_sessions
                        (set_users d (users d ++ [mkUser uid mail (bcrypt_hash e) (now e)]) uid)
                        (sessions d ++ [mkSession (randomBytes e) uid (now e)]))
                     [BcryptHash pw 11]).
  { unfold o, post_register. simpl email. simpl password. unfold text_truthy.
    rewrite (string_is_empty_false _ Hmail), (string_is_empty_false _ Hpw).
    simpl. rewrite Ee. unfold createSession. simpl. rewrite Es. reflexivity. }
  rewrite Ho. simpl. repeat split.
  unfold getSession. simpl. rewrite (string_is_empty_false _ Htok).
  rewrite find_app_none.
  - simpl. rewrite String.eqb_refl. rewrite find_app_none.
    + simpl. rewrite Z.eqb_refl. reflexivity.
    + intros u Hu. simpl. apply Z.eqb_neq. specialize (Hle u Hu). unfold uid. lia.
  - intros s Hs. apply String.eqb_neq. now apply Hnew.
Qed.

(** A third user registers in the garden. *)
Lemma register_then_resolve_witness :
  (accounts_ok garden /\ "c@x.test" <> "" /\ "pw789" <> "" /\ "token-c" <> "") /\
  getSession (state (post_register garden (outside 4000 "token-c" "pw789")
                                   (mkCredentials (Some "c@x.test") (Some "pw789"))))
             (mkRequest (Some "token-c") GET_me)
  = Some ("token-c", 3, "c@x.test").
Proof.
  assert (Hm : "c@x.test" <> "") by discriminate.
  assert (Hp : "pw789" <> "") by discriminate.
  assert (Ht : "token-c" <> "") by discriminate.
  split; [repeat split; try assumption; apply garden_accounts_ok|].
  apply (register_then_resolve garden (outside 4000 "token-c" "pw789")
                               "c@x.test" "pw789" GET_me garden_accounts_ok Hm Hp Ht).
  - intros u [<-|[<-|[]]]; discriminate.
  - intros s [<-|[<-|[]]]; discriminate.
Defined.

(** X7: registering an email that a user already has is answered 409 and
    leaves the database as it was, so the sessions made before stay as
    they are; the hash has been computed by then. *)
Theorem register_taken_email_conflicts (d : db) (e : env) (c : credentials) (u : user) :
  In u (users d) ->
  email c = Some (u_email u) ->
  u_email u <> "" ->
  text_truthy (password c) = true ->
  post_register d e c
  = mkOutcome (json 409 (Error "email already exists")) d
              [BcryptHash (text_or_empty (password c)) 11].
Proof.
  intros Hu Hm Hne Hp. unfold post_register. rewrite Hm, Hp. simpl.
  rewrite (string_is_empty_false _ Hne). simpl.
  assert (E : existsb (fun x => String.eqb (u_email x) (u_email u)) (users d) = true).
  { apply existsb_exists. exists u. split; [exact Hu | apply String.eqb_refl]. }
  rewrite E. reflexivity.
Qed.

Lemma register_taken_email_witness :
  (In (mkUser 1 "a@x.test" "$2b$11$pw123" 1000) (users garden) /\
   text_truthy (Some "other") = true) /\
  post_register garden (outside 4000 "token-c" "other")
                (mkCredentials (Some "a@x.test") (Some "other"))
  = mkOutcome (json 409 (Error "email already exists")) garden [BcryptHash "other" 11].
Proof.
  assert (Hin : In (mkUser 1 "a@x.test" "$2b$11$pw123" 1000) (users garden))
    by (left; reflexivity).
  split; [split; [exact Hin | reflexivity]|].
  apply (register_taken_email_conflicts garden (outside 4000 "token-c" "other")
           (mkCredentials (Some "a@x.test") (Some "other"))
           (mkUser 1 "a@x.test" "$2b$11$pw123" 1000) Hin eq_refl).
  - discriminate.
  - reflexivity.
Defined.

(** X8: the answer of a registration tells what it did: 400 exactly when
    the email or the password is missing or empty, and then nothing is
    stored and nothing hashed; 200 exactly when both are given, no user has
    the email and no session has the token. *)
Theorem register_answers (d : db) (e : env) (c : credentials) :
  (status (resp (post_register d e c)) = 400
   <-> text_truthy (email c) = false \/ text_truthy (password c) = false) /\
  (text_truthy (email c) = false \/ text_truthy (password c) = false ->
   post_register d e c = reply (json 400 (Error "email and password required")) d) /\
  (status (resp (post_register d e c)) = 200
   <-> text_truthy (email c) = true /\ text_truthy (password c) = true /\
       existsb (fun u => String.eqb (u_email u) (text_or_empty (email c))) (users d) = false /\
       existsb (fun s => String.eqb (s_id s) (randomBytes e)) (sessions d) = false).
Proof.
  unfold post_register, createSession.
  destruct (text_truthy (email c)), (text_truthy (password c)); simpl.
  2-4: (split; [split; [auto | reflexivity]
               | split; [intros _; reflexivity
                        | split; [discriminate | intros (H1 & H2 & _); discriminate]]]).
  destruct (existsb _ (users d)); simpl.
  - split; [split; [discriminate | intros [H|H]; discriminate]|].
    split; [intros [H|H]; discriminate|].
    split; [discriminate | intros (_ & _ & H & _); discriminate].
  - destruct (existsb _ (sessions d)); simpl.
    + split; [split; [discriminate | intros [H|H]; discriminate]|].
      split; [intros [H|H]; discriminate|].
      split; [discriminate | intros (_ & _ & _ & H); discriminate].
    + split; [split; [discriminate | intros [H|H]; discriminate]|].
      split; [intros [H|H]; discriminate|].
      split; [auto | reflexivity].
Qed.

(** X9: a registration whose token a session already has is answered 409
    with the message of a taken email, although its user row has been
    written and stays; no session is made for it. *)
Theorem register_token_clash_keeps_user (d : db) (e : env) (mail pw : string)
        (s : session) :
  mail <> "" -> pw <> "" ->
  (forall u, In u (users d) -> u_email u <> mail) ->
  In s (sessions d) -> s_id s = randomBytes e ->
  let o := post_register d e (mkCredentials (Some mail) (Some pw)) in
  resp o = json 409 (Error "email already exists") /\
  users (state o) = users d ++ [mkUser (seq_users d + 1) mail (bcrypt_hash e) (now e)] /\
  sessions (state o) = sessions d.
Proof.
  intros Hmail Hpw Hfresh Hs Htok o.
  assert (Ee : existsb (fun u => String.eqb (u_email u) mail) (users d) = false).
  { destruct (existsb _ (users d)) eqn:E; [|reflexivity].
    apply existsb_exists in E. destruct E as [u [Hu Hm]]. apply String.eqb_eq in Hm.
    exfalso. now apply (Hfresh u). }
  assert (Es : existsb (fun x => String.eqb (s_id x) (randomBytes e)) (sessions d) = true).
  { apply existsb_exists. exists s. split; [exact Hs | now apply String.eqb_eq]. }
  unfold o, post_register. simpl email. simpl password. unfold text_truthy.
  rewrite (string_is_empty_false _ Hmail), (string_is_empty_false _ Hpw).
  simpl. rewrite Ee. unfold createSession. simpl. rewrite Es. simpl. auto.
Qed.

Lemma register_token_clash_witness :
  ("c@x.test" <> "" /\ "pw789" <> "" /\
   In (mkSession "token-a" 1 1000) (sessions garden)) /\
  let o := post_register garden (outside 4000 "token-a" "pw789")
                         (mkCredentials (Some "c@x.test") (Some "pw789")) in
  resp o = json 409 (Error "email already exists") /\
  users (state o) = users garden ++ [mkUser 3 "c@x.test" "$2b$11$pw789" 4000] /\
  sessions (state o) = sessions garden.
Proof.
  assert (Hm : "c@x.test" <> "") by discriminate.
  assert (Hp : "pw789" <> "") by discriminate.
  assert (Hin : In (mkSession "token-a" 1 1000) (sessions garden)) by (left; reflexivity).
  split; [auto|].
  apply (register_token_clash_keeps_user garden (outside 4000 "token-a" "pw789")
           "c@x.test" "pw789" (mkSession "token-a" 1 1000) Hm Hp).
  - intros u [<-|[<-|[]]]; discriminate.
  - exact Hin.
  - reflexivity.
Defined.

(** X10: a login with the email of a user, a password bcrypt accepts and a
    token no session has is answered 200 with the token as the session
    cookie; it appends one session and touches no user, and the cookie
    then resolves to that user. *)
Theorem login_then_resolve (rt : runtime) (d : db) (e : env) (c : credentials)
        (u : user) (r : route) :
  accounts_ok d ->
  In u (users d) ->
  text_or_empty (email c) = u_email u ->
  bcrypt_compare rt (text_or_empty (password c)) (u_password_hash u) = true ->
  randomBytes e <> "" ->
  (forall s, In s (sessions d) -> s_id s <> randomBytes e) ->
  let o := post_login rt d e c in
  resp o = mkResponse 200 Ok (Some (randomBytes e, cookie_maxAge)) false /\
  awaited o = [BcryptCompare (text_or_empty (password c)) (u_password_hash u)] /\
  users (state o) = users d /\
  sessions (state o) = sessions d ++ [mkSession (randomBytes e) (u_id u) (now e)] /\
  getSession (state o) (mkRequest (Some (randomBytes e)) r)
  = Some (randomBytes e, u_id u, u_email u).
Proof.
  intros (Hid & _ & Hmail & _) Hu Hm Hc Htok Hnew o.
  assert (Es : existsb (fun s => String.eqb (s_id s) (randomBytes e)) (sessions d) = false).
  { destruct (existsb _ (sessions d)) eqn:E; [|reflexivity].
    apply existsb_exists in E. destruct E as [s [Hs Hs']]. apply String.eqb_eq in Hs'.
    exfalso. now apply (Hnew s). }
  unfold o, post_login. rewrite Hm, (find_email _ _ Hmail Hu), Hc.
  unfold createSession. rewrite Es. simpl. repeat split.
  unfold getSession. simpl. rewrite (string_is_empty_false _ Htok).
  rewrite find_app_none.
  - simpl. rewrite String.eqb_refl. simpl.
    rewrite (find_key u_id _ _ Hid Hu). reflexivity.
  - intros s Hs. apply String.eqb_neq. now apply Hnew.
Qed.

(** The first user of the garden logs in on a second device. *)
Lemma login_then_resolve_witness :
  (accounts_ok garden /\
   In (mkUser 1 "a@x.test" "$2b$11$pw123" 1000) (users garden) /\
   bcrypt_compare utc_runtime "pw123" "$2b$11$pw123" = true /\
   "token-d" <> "") /\
  getSession (state (post_login utc_runtime garden (outside 4000 "token-d" "") alice))
             (mkRequest (Some "token-d") GET_me)
  = Some ("token-d", 1, "a@x.test").
Proof.
  assert (Hin : In (mkUser 1 "a@x.test" "$2b$11$pw123" 1000) (users garden))
    by (left; reflexivity).
  assert (Ht : "token-d" <> "") by discriminate.
  split; [repeat split; try assumption; apply garden_accounts_ok|].
  apply (login_then_resolve utc_runtime garden (outside 4000 "token-d" "") alice
           (mkUser 1 "a@x.test" "$2b$11$pw123" 1000) GET_me
           garden_accounts_ok Hin eq_refl eq_refl Ht).
  intros s [<-|[<-|[]]]; discriminate.
Defined.

(** X11: a login hands out a cookie only for a user with the given email
    whose stored hash bcrypt has accepted for the given password; the
    cookie is the fresh token, and the session stored under it is that
    user's. *)
Theorem login_cookie_needs_compare (rt : runtime) (d : db) (e : env) (c : credentials)
        (v : string) (age : Z) :
  set_cookie (resp (post_login rt d e c)) = Some (v, age) ->
  exists u,
    In u (users d) /\ u_email u = text_or_empty (email c) /\
    bcrypt_compare rt (text_or_empty (password c)) (u_password_hash u) = true /\
    v = randomBytes e /\
    (forall s, In s (sessions d) -> s_id s <> v) /\
    sessions (state (post_login rt d e c)) = sessions d ++ [mkSession v (u_id u) (now e)].
Proof.
  unfold post_login.
  destruct (find _ (users d)) as [u|] eqn:Ef; [|discriminate].
  destruct (bcrypt_compare rt _ _) eqn:Ec; simpl; [|discriminate].
  unfold createSession.
  destruct (existsb _ (sessions d)) eqn:Es; simpl; [discriminate|].
  intros H. injection H as <- <-.
  apply find_some in Ef. destruct Ef as [Hu Hm]. apply String.eqb_eq in Hm.
  exists u. repeat split; try assumption.
  intros s Hs Heq. apply (existsb_token_false _ _ Es).
  rewrite <- Heq. now apply in_map.
Qed.

Lemma login_cookie_needs_compare_witness :
  set_cookie (resp (post_login utc_runtime garden (outside 4000 "token-d" "") alice))
  = Some ("token-d", cookie_maxAge) /\
  exists u,
    In u (users garden) /\ u_email u = "a@x.test" /\
    bcrypt_compare utc_runtime "pw123" (u_password_hash u) = true /\
    "token-d" = "token-d" /\
    (forall s, In s (sessions garden) -> s_id s <> "token-d") /\
    sessions (state (post_login utc_runtime garden (outside 4000 "token-d" "") alice))
    = sessions garden ++ [mkSession "token-d" (u_id u) 4000].
Proof.
  split; [reflexivity|].
  exact (login_cookie_needs_compare utc_runtime garden (outside 4000 "token-d" "") alice
           "token-d" cookie_maxAge eq_refl).
Defined.

Lemma find_token_filtered (sid : string) (ss : list session) :
  find (fun s => String.eqb (s_id s) sid)
       (filter (fun s => negb (String.eqb (s_id s) sid)) ss) = None.
Proof.
  induction ss as [|s ss IH]; simpl; [reflexivity|].
  destruct (String.eqb (s_id s) sid) eqn:E; simpl; [exact IH|].
  rewrite E. exact IH.
Qed.

Lemma find_token_filtered_other (sid sid' : string) (ss : list session) :
  sid' <> sid ->
  find (fun s => String.eqb (s_id s) sid')
       (filter (fun s => negb (String.eqb (s_id s) sid)) ss)
  = find (fun s => String.eqb (s_id s) sid') ss.
Proof.
  intros Hne. induction ss as [|s ss IH]; simpl; [reflexivity|].
  destruct (String.eqb (s_id s) sid) eqn:E; simpl.
  - apply String.eqb_eq in E.
    destruct (String.eqb (s_id s) sid') eqn:E'; [|exact IH].
    apply String.eqb_eq in E'. congruence.
  - destruct (String.eqb (s_id s) sid'); [reflexivity | exact IH].
Qed.

Lemma filter_twice {A : Type} (f : A -> bool) (l : list A) :
  filter f (filter f l) = filter f l.
Proof.
  induction l as [|x l IH]; simpl; [reflexivity|].
  destruct (f x) eqn:E; simpl; [rewrite E; f_equal|]; exact IH.
Qed.

(** X12: a logout is always answered 200 and clears the cookie; after it
    the cookie of the request resolves to nothing, every other cookie
    resolves as before, no user is touched, and a second logout with the
    same cookie changes nothing more. *)
Theorem logout_revokes_only_its_token (d : db) (req : request) :
  let d' := state (post_logout d req) in
  resp (post_logout d req) = mkResponse 200 Ok None true /\
  (forall r, getSession d' (mkRequest (signedCookie req) r) = None) /\
  (forall c r, c <> signedCookie req ->
               getSession d' (mkRequest c r) = getSession d (mkRequest c r)) /\
  users d' = users d /\
  state (post_logout d' req) = d'.
Proof.
  unfold post_logout, destroySession. simpl.
  destruct (signedCookie req) as [sid|].
  - destruct (string_is_empty sid) eqn:Ee.
    + split; [reflexivity|]. split; [|split; [|split]]; try reflexivity.
      intros r. unfold getSession. simpl. now rewrite Ee.
    + split; [reflexivity|]. split; [|split; [|split]].
      * intros r. unfold getSession. simpl. rewrite Ee, find_token_filtered. reflexivity.
      * intros c r Hc. unfold getSession. simpl.
        destruct c as [sid'|]; [|reflexivity].
        destruct (string_is_empty sid'); [reflexivity|].
        rewrite find_token_filtered_other by congruence. reflexivity.
      * reflexivity.
      * unfold set_sessions. simpl. now rewrite filter_twice.
  - split; [reflexivity|]. split; [|split; [|split]]; reflexivity.
Qed.

Lemma handle_users_grow (rt : runtime) (d : db) (e : env) (req : request) :
  exists more, users (state (handle rt d e req)) = users d ++ more.
Proof.
  destruct (session_route (target req)) eqn:Er.
  - unfold handle.
    destruct (target req) as [c|c| | | |a|id a|id|id date|id date|id];
      try discriminate Er.
    + unfold post_register.
      destruct (negb (text_truthy (email c)) || negb (text_truthy (password c)));
        [exists []; now rewrite app_nil_r|].
      destruct (existsb _ (users d)); [exists []; now rewrite app_nil_r|].
      destruct (createSession _ e (seq_users d + 1)) as [[sid d2]|ex] eqn:E; simpl.
      * apply createSession_tables in E. destruct E as (-> & _). simpl. eauto.
      * eauto.
    + unfold post_login.
      destruct (find _ (users d)) as [u|]; [|exists []; now rewrite app_nil_r].
      destruct (negb _); [exists []; now rewrite app_nil_r|].
      destruct (createSession d e (u_id u)) as [[sid d1]|ex] eqn:E; simpl;
        [|exists []; now rewrite app_nil_r].
      apply createSession_tables in E. destruct E as (-> & _).
      exists []. now rewrite app_nil_r.
    + unfold post_logout, destroySession. simpl.
      destruct (signedCookie req) as [sid|]; [|exists []; now rewrite app_nil_r].
      destruct (string_is_empty sid); exists []; simpl; now rewrite app_nil_r.
  - destruct (handle_keeps_accounts rt d e req Er) as (-> & _).
    exists []. now rewrite app_nil_r.
Qed.

(** X13: no sequence of requests removes or alters a user: the users at
    the start stay, in their order, at the head of the table. *)
Theorem run_users_only_grow (rt : runtime) (rs : list (env * request)) (d : db) :
  exists more, users (run rt d rs) = users d ++ more.
Proof.
  revert d. induction rs as [|[e req] rs IH]; intros d; simpl.
  - exists []. now rewrite app_nil_r.
  - destruct (IH (state (handle rt d e req))) as [m2 ->].
    destruct (handle_users_grow rt d e req) as [m1 ->].
    exists (m1 ++ m2). now rewrite app_assoc.
Qed.

(* ===================================================================== *)
(** ** Listing, selecting and creating records *)
(* ===================================================================== *)

Lemma sort_insert_desc_sorted {A : Type} (key : A -> Z) (x : A) (l : list A) :
  StronglySorted (fun a b => key b <= key a) l ->
  StronglySorted (fun a b => key b <= key a) (sort_insert (fun a b => key b - key a) x l).
Proof.
  induction l as [|y l IH]; intros Hs; simpl.
  - constructor; constructor.
  - inversion Hs as [|y' l' Hl Hy]; subst.
    destruct (key y - key x <=? 0) eqn:E.
    + apply Z.leb_le in E. constructor; [exact Hs|].
      constructor; [lia|].
      rewrite Forall_forall in Hy |- *. intros z Hz. specialize (Hy z Hz). lia.
    + apply Z.leb_gt in E. constructor; [now apply IH|].
      apply Permutation_Forall with (x :: l).
      * apply Permutation_sym, sort_insert_perm.
      * constructor; [lia | exact Hy].
Qed.

Lemma order_by_desc_sorted {A : Type} (key : A -> Z) (l : list A) :
  StronglySorted (fun a b => key b <= key a) (order_by_desc key l).
Proof.
  unfold order_by_desc. induction l as [|x l IH]; simpl.
  - constructor.
  - now apply sort_insert_desc_sorted.
Qed.

Lemma sorted_keys_strict {A : Type} (key : A -> Z) (l : list A) :
  NoDup (map key l) ->
  StronglySorted (fun a b => key b <= key a) l ->
  StronglySorted (fun a b => key b < key a) l.
Proof.
  induction l as [|x l IH]; simpl; intros Hnd Hs; [constructor|].
  inversion Hnd as [|k ks Hnotin Hnd']; subst.
  inversion Hs as [|x' l' Hl Hx]; subst.
  constructor; [now apply IH|].
  rewrite Forall_forall in Hx |- *. intros y Hy. specialize (Hx y Hy).
  assert (key y <> key x) by (intros E; apply Hnotin; rewrite <- E; now apply in_map).
  lia.
Qed.

Lemma NoDup_map_filter {A B : Type} (g : A -> B) (f : A -> bool) (l : list A) :
  NoDup (map g l) -> NoDup (map g (filter f l)).
Proof.
  induction l as [|x l IH]; simpl; intros Hnd; [constructor|].
  inversion Hnd as [|k ks Hnotin Hnd']; subst.
  destruct (f x); simpl; [|now apply IH].
  constructor; [|now apply IH].
  intros Hin. apply Hnotin. apply in_map_iff in Hin. destruct Hin as [y [Hy Hin]].
  apply filter_In in Hin. rewrite <- Hy. apply in_map. tauto.
Qed.

(** X14: the list of an authenticated user holds exactly the plants that
    are the user's own or have no owner, each once, by descending id; the
    database is left as it was. *)
Theorem list_shows_own_and_unowned (rt : runtime) (d : db) (e : env)
        (c : option string) (uid : Z) :
  keys_ok d ->
  authenticated d c uid ->
  exists rows,
    handle rt d e (mkRequest c GET_plants) = reply (json 200 (Plants rows)) d /\
    (forall p, In p rows <->
               In p (plants d) /\ (p_user_id p = None \/ p_user_id p = Some uid)) /\
    StronglySorted (fun a b => p_id b < p_id a) rows.
Proof.
  intros (Hnd & _) Hauth. unfold handle. simpl target.
  destruct (requireAuth_authenticated d c uid GET_plants
              (fun u => get_plants d u) Hauth) as (u & Hu & ->).
  unfold get_plants. rewrite Hu. eexists. split; [reflexivity|].
  assert (Hperm : Permutation (order_by_desc p_id (filter (visible_to uid) (plants d)))
                              (filter (visible_to uid) (plants d)))
    by apply js_sort_perm.
  split.
  - intros p. split.
    + intros Hin. apply (Permutation_in _ Hperm) in Hin. apply filter_In in Hin.
      destruct Hin as [Hin Hv]. split; [exact Hin|].
      unfold visible_to in Hv. destruct (p_user_id p) as [o|]; [|now left].
      apply Z.eqb_eq in Hv. subst. now right.
    + intros [Hin Hown]. apply (Permutation_in _ (Permutation_sym Hperm)).
      apply filter_In. split; [exact Hin|]. unfold visible_to.
      destruct Hown as [->| ->]; [reflexivity | apply Z.eqb_refl].
  - apply sorted_keys_strict; [|apply order_by_desc_sorted].
    apply Permutation_NoDup with (map p_id (filter (visible_to uid) (plants d))).
    + apply Permutation_map, Permutation_sym, Hperm.
    + now apply NoDup_map_filter.
Qed.

Lemma list_shows_witness :
  (keys_ok garden /\ authenticated garden (Some "token-a") 1) /\
  exists rows,
    handle utc_runtime garden (outside 4000 "" "") (as_alice GET_plants)
    = reply (json 200 (Plants rows)) garden /\
    (forall p, In p rows <->
               In p (plants garden) /\ (p_user_id p = None \/ p_user_id p = Some 1)) /\
    StronglySorted (fun a b => p_id b < p_id a) rows.
Proof.
  assert (Hk : keys_ok garden) by exact (proj1 garden_consistent).
  assert (Ha : authenticated garden (Some "token-a") 1).
  { exists "token-a", "a@x.test". intros r. reflexivity. }
  split; [split; assumption|].
  exact (list_shows_own_and_unowned utc_runtime garden (outside 4000 "" "")
           (Some "token-a") 1 Hk Ha).
Defined.

(** X15: with [id] a key, the ownership SELECT finds a record exactly
    when the id is the record's and the record is the caller's own or has
    no owner; a record without owner is found for every user. *)
Theorem select_finds_own_and_unowned (d : db) (id : number) (uid : Z) (p : plant) :
  keys_ok d ->
  (select_plant d id uid = Some p <->
   id = Num (p_id p) /\ In p (plants d) /\
   (p_user_id p = None \/ p_user_id p = Some uid)).
Proof.
  intros (Hnd & _). split.
  - intros H. apply select_plant_some in H. destruct H as (Hid & Hin & Hv).
    repeat split; try assumption.
    unfold visible_to in Hv. destruct (p_user_id p) as [o|]; [|now left].
    apply Z.eqb_eq in Hv. subst. now right.
  - intros (-> & Hin & Hown). simpl.
    assert (Hv : visible_to uid p = true).
    { unfold visible_to. destruct Hown as [->| ->]; [reflexivity | apply Z.eqb_refl]. }
    destruct (find _ (plants d)) as [q|] eqn:E.
    + apply find_some in E. destruct E as [Hq Hp].
      apply andb_prop in Hp. destruct Hp as [Hqid _]. apply Z.eqb_eq in Hqid.
      f_equal. now apply (key_determines_row (plants d)).
    + apply (find_none _ _ E) in Hin. rewrite Z.eqb_refl, Hv in Hin. discriminate.
Qed.

Lemma select_finds_witness :
  keys_ok garden /\
  (select_plant garden (Num 1) 1 = Some the_fern <->
   Num 1 = Num (p_id the_fern) /\ In the_fern (plants garden) /\
   (p_user_id the_fern = None \/ p_user_id the_fern = Some 1)).
Proof.
  split.
  - exact (proj1 garden_consistent).
  - exact (select_finds_own_and_unowned garden (Num 1) 1 the_fern
             (proj1 garden_consistent)).
Defined.

Lemma filter_none {A : Type} (f : A -> bool) (l : list A) :
  (forall x, In x l -> f x = false) -> filter f l = [].
Proof.
  induction l as [|x l IH]; simpl; intros H; [reflexivity|].
  rewrite (H x) by now left. apply IH. intros y Hy. apply H. now right.
Qed.

(** X16: a record created with a name gets an id above every id in use;
    under that id its creator finds it, with the text attributes as given,
    the creator as owner and both cached fields unset; no other user finds
    it; its history is empty; and every record found before is found
    unchanged. *)
Theorem create_then_select (rt : runtime) (d : db) (u : identity) (a : attrs) :
  keys_ok d ->
  text_truthy (name a) = true ->
  let o := post_plants rt d u a in
  let z := seq_plants d + 1 in
  resp o = json 200 (Created z) /\
  (forall p, In p (plants d) -> p_id p < z) /\
  (exists row,
     select_plant (state o) (Num z) (user_id u) = Some row /\
     name a = Some (p_name row) /\ p_species row = species a /\
     p_location row = location a /\ p_notes row = notes a /\
     p_user_id row = Some (user_id u) /\
     p_last_watered row = None /\ p_last_repotted row = None) /\
  (forall uid, uid <> user_id u -> select_plant (state o) (Num z) uid = None) /\
  get_history (state o) u (Num z) = reply (json 200 (History [])) (state o) /\
  (forall id uid p, select_plant d id uid = Some p ->
                    select_plant (state o) id uid = Some p).
Proof.
  intros (Hnd & Hle & Hw & Hr) Hname o z.
  assert (Hfresh : forall p, In p (plants d) -> p_id p < z).
  { intros p Hp. specialize (Hle p Hp). unfold z. lia. }
  unfold o, post_plants. rewrite Hname. simpl negb. cbv iota.
  set (row := mkPlant _ _ _ _ _ _ _ _ _ _).
  assert (Hsel : forall uid,
             select_plant (set_plants d (plants d ++ [row]) (seq_plants d + 1)) (Num z) uid
             = if visible_to uid row then Some row else None).
  { intros uid. simpl. rewrite find_app_none.
    - change (p_id row) with z. rewrite Z.eqb_refl. simpl.
      destruct (visible_to uid row); reflexivity.
    - intros p Hp. specialize (Hfresh p Hp).
      replace (p_id p =? z) with false by (symmetry; apply Z.eqb_neq; lia).
      reflexivity. }
  split; [reflexivity|]. split; [exact Hfresh|]. split; [|split; [|split]].
  - exists row. split.
    + simpl state. rewrite Hsel.
      replace (visible_to (user_id u) row) with true
        by (unfold visible_to, row; simpl; symmetry; apply Z.eqb_refl).
      reflexivity.
    + simpl. repeat split.
      unfold text_truthy in Hname. destruct (name a); [reflexivity | discriminate].
  - intros uid Hne. simpl state. rewrite Hsel.
    replace (visible_to uid row) with false; [reflexivity|].
    unfold visible_to, row. simpl. symmetry. apply Z.eqb_neq. lia.
  - unfold get_history. simpl state. rewrite Hsel.
    replace (visible_to (user_id u) row) with true
      by (unfold visible_to, row; simpl; symmetry; apply Z.eqb_refl).
    change (p_id row) with z. unfold select_events. simpl waterings. simpl repottings.
    rewrite !filter_none; [reflexivity | |].
    + intros ev Hev. specialize (Hr ev Hev). apply Z.eqb_neq. lia.
    + intros ev Hev. specialize (Hw ev Hev). apply Z.eqb_neq. lia.
  - intros id uid p Hp. destruct id as [|k]; [discriminate|].
    simpl in *. now apply find_app_some.
Qed.

(** The first user plants an ivy in the garden. *)
Lemma create_then_select_witness :
  (keys_ok garden /\
   text_truthy (name (mkAttrs (Some "Ivy") (Some "Hedera") None
                              (JNum (Num 10)) JUndefined None)) = true) /\
  exists row,
    select_plant
      (state (post_plants utc_runtime garden (mkIdentity 1 "a@x.test")
                          (mkAttrs (Some "Ivy") (Some "Hedera") None
                                   (JNum (Num 10)) JUndefined None)))
      (Num 2) 1 = Some row /\
    Some "Ivy" = Some (p_name row) /\ p_species row = Some "Hedera" /\
    p_location row = None /\ p_notes row = None /\
    p_user_id row = Some 1 /\
    p_last_watered row = None /\ p_last_repotted row = None.
Proof.
  split; [split; [exact (proj1 garden_consistent) | reflexivity]|].
  exact (proj1 (proj2 (proj2
           (create_then_select utc_runtime garden (mkIdentity 1 "a@x.test")
              (mkAttrs (Some "Ivy") (Some "Hedera") None (JNum (Num 10)) JUndefined None)
              (proj1 garden_consistent) eq_refl)))).
Defined.

(* ===================================================================== *)
(** ** Records that are not there, and appends *)
(* ===================================================================== *)

Lemma select_plant_missing (d : db) (id : number) (uid : Z) :
  (forall p, In p (plants d) -> id <> Num (p_id p)) ->
  select_plant d id uid = None.
Proof.
  intros H. destruct (select_plant d id uid) as [p|] eqn:E; [|reflexivity].
  apply select_plant_some in E. destruct E as (Hid & Hin & _).
  exfalso. now apply (H p).
Qed.

(** X17: an id that is no record's, among them the id that is not a
    number, is not found by update, delete, either append or history; the
    answer is the one a record of another owner gets, and the database is
    left as it was. *)
Theorem missing_record_is_not_found (rt : runtime) (d : db) (e : env)
        (c : option string) (uid : Z) (id : number) :
  authenticated d c uid ->
  (forall p, In p (plants d) -> id <> Num (p_id p)) ->
  (forall a, handle rt d e (mkRequest c (PUT_plant id a)) = reply not_found d) /\
  handle rt d e (mkRequest c (DELETE_plant id)) = reply not_found d /\
  (forall date, handle rt d e (mkRequest c (POST_water id date)) = reply not_found d) /\
  (forall date, handle rt d e (mkRequest c (POST_repot id date)) = reply not_found d) /\
  handle rt d e (mkRequest c (GET_history id)) = reply not_found d.
Proof.
  intros Hauth Hmiss. unfold handle; simpl target.
  repeat split.
  - intros a.
    destruct (requireAuth_authenticated d c uid (PUT_plant id a)
                (fun u => put_plant rt d u id a) Hauth) as (u & Hu & ->).
    unfold put_plant. now rewrite select_plant_missing.
  - destruct (requireAuth_authenticated d c uid (DELETE_plant id)
                (fun u => delete_plant d u id) Hauth) as (u & Hu & ->).
    unfold delete_plant. now rewrite select_plant_missing.
  - intros date.
    destruct (requireAuth_authenticated d c uid (POST_water id date)
                (fun u => post_water rt d e u id date) Hauth) as (u & Hu & ->).
    unfold post_water. now rewrite select_plant_missing.
  - intros date.
    destruct (requireAuth_authenticated d c uid (POST_repot id date)
                (fun u => post_repot rt d e u id date) Hauth) as (u & Hu & ->).
    unfold post_repot. now rewrite select_plant_missing.
  - destruct (requireAuth_authenticated d c uid (GET_history id)
                (fun u => get_history d u id) Hauth) as (u & Hu & ->).
    unfold get_history. now rewrite select_plant_missing.
Qed.

Lemma missing_record_witness :
  authenticated garden (Some "token-a") 1 /\
  handle utc_runtime garden (outside 4000 "" "") (as_alice (DELETE_plant NaN))
  = reply not_found garden /\
  handle utc_runtime garden (outside 4000 "" "") (as_alice (GET_history (Num 7)))
  = reply not_found garden.
Proof.
  assert (Ha : authenticated garden (Some "token-a") 1).
  { exists "token-a", "a@x.test". intros r. reflexivity. }
  split; [exact Ha|]. split.
  - apply (missing_record_is_not_found utc_runtime garden (outside 4000 "" "")
             (Some "token-a") 1 NaN Ha).
    intros p _. discriminate.
  - apply (missing_record_is_not_found utc_runtime garden (outside 4000 "" "")
             (Some "token-a") 1 (Num 7) Ha).
    intros p [<-|[]]. discriminate.
Defined.

Lemma update_where_id_other (z : Z) (f : plant -> plant) (ps : list plant) (q : plant) :
  In q ps -> p_id q <> z -> In q (update_where_id z f ps).
Proof.
  intros Hin Hne. unfold update_where_id. apply in_map_iff.
  exists q. split; [|exact Hin].
  apply Z.eqb_neq in Hne. now rewrite Hne.
Qed.

(** X18: an append on an accessible record whose date resolves is answered
    200 with the effective timestamp, and adds exactly one row to its own
    ledger, after the rows already there, for that record, that timestamp
    and the caller; it leaves the other ledger, the users and the sessions
    as they were, and every other record as it was. *)
Theorem append_adds_one_event (rt : runtime) (d : db) (e : env) (u : identity)
        (id : number) (date : option string) (p : plant) (at_ : Z) :
  select_plant d id (user_id u) = Some p ->
  normalizeDate rt (now e) date = Normal at_ ->
  (let o := post_water rt d e u id date in
   resp o = json 200 (OkAt at_) /\
   waterings (state o)
   = waterings d ++ [mkEvent (seq_waterings d + 1) (p_id p) at_ (Some (user_id u))] /\
   repottings (state o) = repottings d /\
   users (state o) = users d /\ sessions (state o) = sessions d /\
   map p_id (plants (state o)) = map p_id (plants d) /\
   (forall q, In q (plants d) -> p_id q <> p_id p -> In q (plants (state o)))) /\
  (let o := post_repot rt d e u id date in
   resp o = json 200 (OkAt at_) /\
   repottings (state o)
   = repottings d ++ [mkEvent (seq_repottings d + 1) (p_id p) at_ (Some (user_id u))] /\
   waterings (state o) = waterings d /\
   users (state o) = users d /\ sessions (state o) = sessions d /\
   map p_id (plants (state o)) = map p_id (plants d) /\
   (forall q, In q (plants d) -> p_id q <> p_id p -> In q (plants (state o)))).
Proof.
  intros Hsel Hat. split.
  - unfold post_water. rewrite Hsel, Hat.
    destruct (newer at_ (p_last_watered p)); simpl; repeat split; auto.
    + now apply update_where_id_ids.
    + intros q Hq Hne. now apply update_where_id_other.
  - unfold post_repot. rewrite Hsel, Hat.
    destruct (newer at_ (p_last_repotted p)); simpl; repeat split; auto.
    + now apply update_where_id_ids.
    + intros q Hq Hne. now apply update_where_id_other.
Qed.

(** Two waterings of the same day are two rows. *)
Lemma append_adds_one_event_witness :
  (select_plant garden (Num 1) 1 = Some the_fern /\
   normalizeDate utc_runtime 4000 (Some "2024-01-10") = Normal 1704844800000) /\
  let d1 := state (post_water utc_runtime garden (outside 4000 "" "")
                              (mkIdentity 1 "a@x.test") (Num 1) (Some "2024-01-10")) in
  waterings d1 = [mkEvent 1 1 1704844800000 (Some 1)] /\
  waterings (state (post_water utc_runtime d1 (outside 5000 "" "")
                               (mkIdentity 1 "a@x.test") (Num 1) (Some "2024-01-10")))
  = [mkEvent 1 1 1704844800000 (Some 1); mkEvent 2 1 1704844800000 (Some 1)].
Proof.
  split; [split; reflexivity|].
  split.
  - exact (proj1 (proj2 (proj1
             (append_adds_one_event utc_runtime garden (outside 4000 "" "")
                (mkIdentity 1 "a@x.test") (Num 1) (Some "2024-01-10") the_fern
                1704844800000 eq_refl eq_refl)))).
  - reflexivity.
Defined.

(* ===================================================================== *)
(** ** What a request may do to a record *)
(* ===================================================================== *)

Lemma not_before_refl (a : option Z) : not_before a a.
Proof. destruct a; simpl; [lia | exact I]. Qed.

Lemma not_before_trans (a b c : option Z) :
  not_before a b -> not_before b c -> not_before a c.
Proof. destruct a, b, c; simpl; try tauto; lia. Qed.

Lemma newer_not_before (at_ : Z) (cached : option Z) :
  newer at_ cached = true -> not_before cached (Some at_).
Proof.
  unfold newer. destruct cached as [c|]; simpl; [|trivial].
  intros H. apply Z.gtb_lt in H. lia.
Qed.

Lemma row_origin_same (d : db) (q : plant) : In q (plants d) -> row_origin d q.
Proof.
  intros H. right. exists q. repeat split; auto using not_before_refl.
Qed.

Lemma step_ok_same (d d' : db) :
  plants d' = plants d -> waterings d' = waterings d ->
  repottings d' = repottings d -> seq_plants d' = seq_plants d ->
  keys_ok d -> step_ok d d'.
Proof.
  intros Hp Hw Hr Hs Hk. unfold step_ok, keys_ok in *.
  rewrite Hp, Hw, Hr, Hs. repeat split; try tauto; try lia.
  intros q Hq. now apply row_origin_same.
Qed.

Lemma step_ok_refl (d : db) : keys_ok d -> step_ok d d.
Proof. intros H. now apply step_ok_same. Qed.

Lemma post_plants_step (rt : runtime) (d : db) (u : identity) (a : attrs) :
  keys_ok d -> step_ok d (state (post_plants rt d u a)).
Proof.
  intros Hk. pose proof Hk as (Hnd & Hp & Hw & Hr). unfold post_plants.
  destruct (negb (text_truthy (name a))); [now apply step_ok_refl|].
  simpl. split; [repeat split; simpl|split; [simpl; lia|]].
  - rewrite map_app. simpl. apply NoDup_snoc; [exact Hnd|].
    intros Hin. apply in_map_iff in Hin. destruct Hin as [p [Hid Hin]].
    specialize (Hp p Hin). lia.
  - intros p Hin. apply in_app_or in Hin. destruct Hin as [Hin|[<-|[]]]; simpl.
    + specialize (Hp p Hin). lia.
    + lia.
  - intros ev Hin. specialize (Hw ev Hin). lia.
  - intros ev Hin. specialize (Hr ev Hin). lia.
  - intros q Hq. simpl in Hq. apply in_app_or in Hq. destruct Hq as [Hq|[<-|[]]].
    + now apply row_origin_same.
    + left. simpl. lia.
Qed.

Lemma put_plant_step (rt : runtime) (d : db) (u : identity) (id : number) (a : attrs) :
  keys_ok d -> step_ok d (state (put_plant rt d u id a)).
Proof.
  intros Hk. pose proof Hk as (Hnd & Hp & Hw & Hr). unfold put_plant.
  destruct (select_plant d id (user_id u)) as [p|]; [|now apply step_ok_refl].
  simpl. split; [repeat split; simpl|split; [simpl; lia|]].
  - rewrite update_where_id_ids; [exact Hnd | reflexivity].
  - intros q Hin. apply in_update_where_id in Hin. destruct Hin as [q0 [Hin ->]].
    specialize (Hp q0 Hin). destruct (p_id q0 =? p_id p); simpl; exact Hp.
  - exact Hw.
  - exact Hr.
  - intros q Hq. simpl in Hq. apply in_update_where_id in Hq.
    destruct Hq as [q0 [Hq0 ->]]. right. exists q0.
    destruct (p_id q0 =? p_id p); simpl; repeat split; auto using not_before_refl.
Qed.

Lemma delete_plant_step (d : db) (u : identity) (id : number) :
  keys_ok d -> step_ok d (state (delete_plant d u id)).
Proof.
  intros Hk. pose proof Hk as (Hnd & Hp & Hw & Hr). unfold delete_plant.
  destruct (select_plant d id (user_id u)) as [p|]; [|now apply step_ok_refl].
  simpl. split; [repeat split; simpl|split; [simpl; lia|]].
  - now apply NoDup_map_filter.
  - intros q Hin. apply filter_In in Hin. apply Hp. tauto.
  - intros ev Hin. apply filter_In in Hin. apply Hw. tauto.
  - intros ev Hin. apply filter_In in Hin. apply Hr. tauto.
  - intros q Hq. simpl in Hq. apply filter_In in Hq. apply row_origin_same. tauto.
Qed.

Lemma post_water_step (rt : runtime) (d : db) (e : env) (u : identity)
      (id : number) (date : option string) :
  keys_ok d -> step_ok d (state (post_water rt d e u id date)).
Proof.
  intros Hk. pose proof Hk as (Hnd & Hp & Hw & Hr). unfold post_water.
  destruct (select_plant d id (user_id u)) as [p|] eqn:Es; [|now apply step_ok_refl].
  apply select_plant_some in Es. destruct Es as (_ & Hin & _).
  destruct (normalizeDate rt (now e) date) as [at_|ex]; [|now apply step_ok_refl].
  assert (Hev : forall ev,
             In ev (waterings d ++ [mkEvent (seq_waterings d + 1) (p_id p) at_
                                            (Some (user_id u))]) ->
             e_plant_id ev <= seq_plants d).
  { intros ev Hev. apply in_app_or in Hev. destruct Hev as [Hev|[<-|[]]].
    - now apply Hw.
    - simpl. now apply Hp. }
  destruct (newer at_ (p_last_watered p)) eqn:En; simpl.
  - split; [repeat split; simpl|split; [simpl; lia|]].
    + rewrite update_where_id_ids; [exact Hnd | reflexivity].
    + intros q Hq. apply in_update_where_id in Hq. destruct Hq as [q0 [Hq ->]].
      specialize (Hp q0 Hq). destruct (p_id q0 =? p_id p); simpl; exact Hp.
    + exact Hev.
    + exact Hr.
    + intros q Hq. simpl in Hq. apply in_update_where_id in Hq.
      destruct Hq as [q0 [Hq0 ->]]. right. exists q0.
      destruct (p_id q0 =? p_id p) eqn:E; simpl;
        repeat split; auto using not_before_refl.
      apply Z.eqb_eq in E.
      assert (q0 = p) as -> by now apply (key_determines_row (plants d)).
      now apply newer_not_before.
  - split; [repeat split; simpl; assumption|split; [simpl; lia|]].
    intros q Hq. now apply row_origin_same.
Qed.

Lemma post_repot_step (rt : runtime) (d : db) (e : env) (u : identity)
      (id : number) (date : option string) :
  keys_ok d -> step_ok d (state (post_repot rt d e u id date)).
Proof.
  intros Hk. pose proof Hk as (Hnd & Hp & Hw & Hr). unfold post_repot.
  destruct (select_plant d id (user_id u)) as [p|] eqn:Es; [|now apply step_ok_refl].
  apply select_plant_some in Es. destruct Es as (_ & Hin & _).
  destruct (normalizeDate rt (now e) date) as [at_|ex]; [|now apply step_ok_refl].
  assert (Hev : forall ev,
             In ev (repottings d ++ [mkEvent (seq_repottings d + 1) (p_id p) at_
                                             (Some (user_id u))]) ->
             e_plant_id ev <= seq_plants d).
  { intros ev Hev. apply in_app_or in Hev. destruct Hev as [Hev|[<-|[]]].
    - now apply Hr.
    - simpl. now apply Hp. }
  destruct (newer at_ (p_last_repotted p)) eqn:En; simpl.
  - split; [repeat split; simpl|split; [simpl; lia|]].
    + rewrite update_where_id_ids; [exact Hnd | reflexivity].
    + intros q Hq. apply in_update_where_id in Hq. destruct Hq as [q0 [Hq ->]].
      specialize (Hp q0 Hq). destruct (p_id q0 =? p_id p); simpl; exact Hp.
    + exact Hw.
    + exact Hev.
    + intros q Hq. simpl in Hq. apply in_update_where_id in Hq.
      destruct Hq as [q0 [Hq0 ->]]. right. exists q0.
      destruct (p_id q0 =? p_id p) eqn:E; simpl;
        repeat split; auto using not_before_refl.
      apply Z.eqb_eq in E.
      assert (q0 = p) as -> by now apply (key_determines_row (plants d)).
      now apply newer_not_before.
  - split; [repeat split; simpl; assumption|split; [simpl; lia|]].
    intros q Hq. now apply row_origin_same.
Qed.

Lemma handle_step (rt : runtime) (d : db) (e : env) (req : request) :
  keys_ok d -> step_ok d (state (handle rt d e req)).
Proof.
  intros H. unfold handle.
  destruct (target req) as [c|c| | | |a|id a|id|id date|id date|id].
  - unfold post_register.
    destruct (negb (text_truthy (email c)) || negb (text_truthy (password c)));
      [now apply step_ok_refl|].
    destruct (existsb _ (users d)); [now apply step_ok_refl|].
    destruct (createSession _ e (seq_users d + 1)) as [[sid d2]|ex] eqn:E; simpl.
    + apply createSession_tables in E. simpl in E.
      destruct E as (_ & Hp & Hw & Hr & Hs & _). now apply step_ok_same.
    + now apply step_ok_same.
  - unfold post_login.
    destruct (find _ (users d)) as [usr|]; [|now apply step_ok_refl].
    destruct (negb _); [now apply step_ok_refl|].
    destruct (createSession d e (u_id usr)) as [[sid d1]|ex] eqn:E; simpl;
      [|now apply step_ok_refl].
    apply createSession_tables in E. destruct E as (_ & Hp & Hw & Hr & Hs & _).
    now apply step_ok_same.
  - unfold post_logout, destroySession. simpl.
    destruct (signedCookie req) as [sid|]; [|now apply step_ok_refl].
    destruct (string_is_empty sid); [now apply step_ok_refl|]. now apply step_ok_same.
  - unfold get_me. destruct (getSession d req) as [[[sid uid] mail]|];
      now apply step_ok_refl.
  - destruct (requireAuth_cases d req (fun u => get_plants d u)) as [->|[u ->]];
      now apply step_ok_refl.
  - destruct (requireAuth_cases d req (fun u => post_plants rt d u a)) as [->|[u ->]];
      [now apply step_ok_refl | now apply post_plants_step].
  - destruct (requireAuth_cases d req (fun u => put_plant rt d u id a)) as [->|[u ->]];
      [now apply step_ok_refl | now apply put_plant_step].
  - destruct (requireAuth_cases d req (fun u => delete_plant d u id)) as [->|[u ->]];
      [now apply step_ok_refl | now apply delete_plant_step].
  - destruct (requireAuth_cases d req (fun u => post_water rt d e u id date))
      as [->|[u ->]]; [now apply step_ok_refl | now apply post_water_step].
  - destruct (requireAuth_cases d req (fun u => post_repot rt d e u id date))
      as [->|[u ->]]; [now apply step_ok_refl | now apply post_repot_step].
  - destruct (requireAuth_cases d req (fun u => get_history d u id)) as [->|[u ->]];
      [now apply step_ok_refl|].
    unfold get_history. destruct (select_plant d id (user_id u)); now apply step_ok_refl.
Qed.

Lemma run_step (rt : runtime) (rs : list (env * request)) (d : db) :
  keys_ok d -> step_ok d (run rt d rs).
Proof.
  revert d. induction rs as [|[e req] rs IH]; intros d H; simpl.
  - now apply step_ok_refl.
  - destruct (handle_step rt d e req H) as (H1 & Hs1 & Ho1).
    destruct (IH _ H1) as (H2 & Hs2 & Ho2).
    split; [exact H2|]. split; [lia|].
    intros q Hq. destruct (Ho2 q Hq) as [Hnew|(q1 & Hq1 & Hid & Hown & Hlw & Hlr)].
    + left. lia.
    + destruct (Ho1 q1 Hq1) as [Hnew|(q0 & Hq0 & Hid0 & Hown0 & Hlw0 & Hlr0)].
      * left. lia.
      * right. exists q0. repeat split; try congruence.
        -- exact (not_before_trans _ _ _ Hlw0 Hlw).
        -- exact (not_before_trans _ _ _ Hlr0 Hlr).
Qed.

Lemma run_same_record (rt : runtime) (rs : list (env * request)) (d : db) (p q : plant) :
  keys_ok d -> In p (plants d) -> In q (plants (run rt d rs)) -> p_id q = p_id p ->
  p_user_id q = p_user_id p /\
  not_before (p_last_watered p) (p_last_watered q) /\
  not_before (p_last_repotted p) (p_last_repotted q).
Proof.
  intros Hk Hp Hq Hid. pose proof Hk as (Hnd & Hle & _).
  destruct (run_step rt rs d Hk) as (_ & _ & Ho).
  destruct (Ho q Hq) as [Hnew|(q0 & Hq0 & Hid0 & Hown & Hlw & Hlr)].
  - specialize (Hle p Hp). lia.
  - assert (q0 = p) as -> by (apply (key_determines_row (plants d)); congruence).
    auto.
Qed.

(** X19: ownership is never transferred: after any sequence of requests, a
    record that is still there has the owner it had, and a record without
    owner is still without one. *)
Theorem record_keeps_its_owner (rt : runtime) (rs : list (env * request)) (d : db)
        (p q : plant) :
  keys_ok d -> In p (plants d) -> In q (plants (run rt d rs)) -> p_id q = p_id p ->
  p_user_id q = p_user_id p.
Proof.
  intros Hk Hp Hq Hid. exact (proj1 (run_same_record rt rs d p q Hk Hp Hq Hid)).
Qed.

(** X20: the cached fields never go back: after any sequence of requests,
    a record that is still there has a [last_watered] and a
    [last_repotted] that are set if they were set, and not earlier than
    they were. *)
Theorem cache_never_goes_back (rt : runtime) (rs : list (env * request)) (d : db)
        (p q : plant) :
  keys_ok d -> In p (plants d) -> In q (plants (run rt d rs)) -> p_id q = p_id p ->
  not_before (p_last_watered p) (p_last_watered q) /\
  not_before (p_last_repotted p) (p_last_repotted q).
Proof.
  intros Hk Hp Hq Hid. exact (proj2 (run_same_record rt rs d p q Hk Hp Hq Hid)).
Qed.

(** The fern of the garden, before and after a watering and a logout. *)
Lemma record_keeps_its_owner_witness :
  let rs := [ (outside 4000 "" "", as_alice (POST_water (Num 1) (Some "2024-01-10")));
              (outside 5000 "" "", as_alice POST_logout) ] in
  let watered_fern := mkPlant 1 "Fern" None None (Some 7) (Some 365) None
                              (Some 1704844800000) None (Some 1) in
  (keys_ok garden /\ In the_fern (plants garden) /\
   In watered_fern (plants (run utc_runtime garden rs)) /\
   p_id watered_fern = p_id the_fern) /\
  p_user_id watered_fern = p_user_id the_fern.
Proof.
  intros rs watered_fern.
  assert (Hk : keys_ok garden) by exact (proj1 garden_consistent).
  assert (Hp : In the_fern (plants garden)) by (left; reflexivity).
  assert (Hq : In watered_fern (plants (run utc_runtime garden rs)))
    by (vm_compute; left; reflexivity).
  split; [repeat split; solve [apply Hk | exact Hp | exact Hq]|].
  exact (record_keeps_its_owner utc_runtime rs garden the_fern watered_fern
           Hk Hp Hq eq_refl).
Defined.

Lemma cache_never_goes_back_witness :
  let rs := [ (outside 4000 "" "", as_alice (POST_water (Num 1) (Some "2024-01-10")));
              (outside 5000 "" "", as_alice (POST_water (Num 1) (Some "2024-01-05"))) ] in
  let watered_fern := mkPlant 1 "Fern" None None (Some 7) (Some 365) None
                              (Some 1704844800000) None (Some 1) in
  (keys_ok garden /\ In the_fern (plants garden) /\
   In watered_fern (plants (run utc_runtime garden rs)) /\
   p_id watered_fern = p_id the_fern) /\
  not_before (p_last_watered the_fern) (p_last_watered watered_fern) /\
  not_before (p_last_repotted the_fern) (p_last_repotted watered_fern).
Proof.
  intros rs watered_fern.
  assert (Hk : keys_ok garden) by exact (proj1 garden_consistent).
  assert (Hp : In the_fern (plants garden)) by (left; reflexivity).
  assert (Hq : In watered_fern (plants (run utc_runtime garden rs)))
    by (vm_compute; left; reflexivity).
  split; [repeat split; solve [apply Hk | exact Hp | exact Hq]|].
  exact (cache_never_goes_back utc_runtime rs garden the_fern watered_fern
           Hk Hp Hq eq_refl).
Defined.

(* ===================================================================== *)
(** ** Updates *)
(* ===================================================================== *)

Lemma interval_merge_twice (rt : runtime) (w : jsval) (c : option Z) :
  bind_number (ToNumber rt (js_nullish w
     (column_value (bind_number (ToNumber rt (js_nullish w (column_value c)))))))
  = bind_number (ToNumber rt (js_nullish w (column_value c))).
Proof.
  destruct w; simpl; try reflexivity; destruct c; reflexivity.
Qed.

Lemma updated_row_twice (rt : runtime) (a : attrs) (p : plant) :
  updated_row rt a (updated_row rt a p p) (updated_row rt a p p) = updated_row rt a p p.
Proof.
  unfold updated_row. simpl. rewrite !interval_merge_twice.
  destruct (name a), (species a), (location a), (notes a); reflexivity.
Qed.

Lemma select_plant_updated (rt : runtime) (d : db) (uid : Z) (a : attrs) (p : plant) :
  NoDup (map p_id (plants d)) ->
  select_plant d (Num (p_id p)) uid = Some p ->
  select_plant (set_plants d (update_where_id (p_id p) (updated_row rt a p) (plants d))
                           (seq_plants d))
               (Num (p_id p)) uid
  = Some (updated_row rt a p p).
Proof.
  intros Hnd Hsel. simpl in *.
  assert (Hall : forall q, In q (plants d) -> p_id q = p_id p -> q = p).
  { intros q Hq Hid. apply find_some in Hsel. destruct Hsel as [Hp _].
    now apply (key_determines_row (plants d)). }
  induction (plants d) as [|q ps IH]; simpl in *; [discriminate|].
  inversion Hnd as [|k ks Hnotin Hnd']; subst.
  destruct (p_id q =? p_id p) eqn:E.
  - apply Z.eqb_eq in E. assert (q = p) as -> by (apply Hall; auto).
    simpl. rewrite Z.eqb_refl in *. simpl in *.
    unfold visible_to in *. simpl.
    destruct (match p_user_id p with Some o => o =? uid | None => true end);
      [reflexivity|].
    exfalso. apply find_some in Hsel. destruct Hsel as [Hin _].
    apply Hnotin. apply in_map_iff. exists p. auto.
  - simpl in *. rewrite E. simpl. apply IH; auto.
Qed.

(** X21: an update done twice is the update done once: the second run
    of the same request on the same record is answered 200 and leaves the
    database as the first left it. *)
Theorem update_twice_is_update_once (rt : runtime) (d : db) (u : identity)
        (id : number) (a : attrs) (p : plant) :
  keys_ok d ->
  select_plant d id (user_id u) = Some p ->
  let d1 := state (put_plant rt d u id a) in
  put_plant rt d1 u id a = reply (json 200 Ok) d1.
Proof.
  intros (Hnd & _) Hsel d1.
  pose proof (select_plant_some _ _ _ _ Hsel) as (-> & Hin & _).
  unfold d1, put_plant. rewrite Hsel. simpl state.
  rewrite (select_plant_updated rt d (user_id u) a p Hnd Hsel).
  simpl. unfold reply. f_equal. unfold set_plants. simpl. f_equal.
  unfold update_where_id. rewrite map_map. apply map_ext_in.
  intros q Hq. destruct (p_id q =? p_id p) eqn:E.
  - simpl. rewrite E. apply Z.eqb_eq in E.
    assert (q = p) as -> by now apply (key_determines_row (plants d)).
    apply updated_row_twice.
  - now rewrite E.
Qed.

Lemma update_twice_witness :
  let a := mkAttrs None (Some "Nephrolepis") None (JStr "10") JNull None in
  (keys_ok garden /\ select_plant garden (Num 1) 1 = Some the_fern) /\
  let d1 := state (put_plant utc_runtime garden (mkIdentity 1 "a@x.test") (Num 1) a) in
  put_plant utc_runtime d1 (mkIdentity 1 "a@x.test") (Num 1) a = reply (json 200 Ok) d1.
Proof.
  intros a. split; [split; [exact (proj1 garden_consistent) | reflexivity]|].
  exact (update_twice_is_update_once utc_runtime garden (mkIdentity 1 "a@x.test")
           (Num 1) a the_fern (proj1 garden_consistent) eq_refl).
Defined.

(** X22: an update of an accessible record is answered 200 and writes to
    that record only: the ids of the table, every other record, both
    ledgers, the users and the sessions are as they were. *)
Theorem update_touches_one_record (rt : runtime) (d : db) (u : identity)
        (id : number) (a : attrs) (p : plant) :
  select_plant d id (user_id u) = Some p ->
  let o := put_plant rt d u id a in
  resp o = json 200 Ok /\
  map p_id (plants (state o)) = map p_id (plants d) /\
  (forall q, In q (plants d) -> p_id q <> p_id p -> In q (plants (state o))) /\
  waterings (state o) = waterings d /\ repottings (state o) = repottings d /\
  users (state o) = users d /\ sessions (state o) = sessions d.
Proof.
  intros Hsel. unfold put_plant. rewrite Hsel. simpl. repeat split.
  - now apply update_where_id_ids.
  - intros q Hq Hne. now apply update_where_id_other.
Qed.

Lemma update_touches_witness :
  let a := mkAttrs None (Some "Nephrolepis") None JUndefined JUndefined None in
  select_plant garden (Num 1) 1 = Some the_fern /\
  let o := put_plant utc_runtime garden (mkIdentity 1 "a@x.test") (Num 1) a in
  resp o = json 200 Ok /\
  map p_id (plants (state o)) = map p_id (plants garden) /\
  (forall q, In q (plants garden) -> p_id q <> p_id the_fern -> In q (plants (state o))) /\
  waterings (state o) = waterings garden /\ repottings (state o) = repottings garden /\
  users (state o) = users garden /\ sessions (state o) = sessions garden.
Proof.
  intros a. split; [reflexivity|].
  exact (update_touches_one_record utc_runtime garden (mkIdentity 1 "a@x.test")
           (Num 1) a the_fern eq_refl).
Defined.

(** X25: an update is a merge: in the updated record a text attribute
    the request gives has the given value and one it does not give (or
    gives as null) keeps its value; an interval the request does not give
    keeps its number, and becomes 0 where the column held NULL; the owner
    and the cached fields are never written. *)
Theorem update_merges_what_is_not_given (rt : runtime) (d : db) (u : identity)
        (id : number) (a : attrs) (p : plant) :
  keys_ok d ->
  select_plant d id (user_id u) = Some p ->
  exists q,
    plant_by_id (state (put_plant rt d u id a)) (p_id p) = Some q /\
    p_user_id q = p_user_id p /\
    p_last_watered q = p_last_watered p /\
    p_last_repotted q = p_last_repotted p /\
    p_name q = match name a with Some s => s | None => p_name p end /\
    p_species q = match species a with Some s => Some s | None => p_species p end /\
    p_location q = match location a with Some s => Some s | None => p_location p end /\
    p_notes q = match notes a with Some s => Some s | None => p_notes p end /\
    (water_interval_days a = JUndefined \/ water_interval_days a = JNull ->
     p_water_interval_days q
     = Some (match p_water_interval_days p with Some z => z | None => 0 end)) /\
    (repot_interval_days a = JUndefined \/ repot_interval_days a = JNull ->
     p_repot_interval_days q
     = Some (match p_repot_interval_days p with Some z => z | None => 0 end)).
Proof.
  intros (Hnd & _) Hsel.
  pose proof (select_plant_some _ _ _ _ Hsel) as (_ & Hin & _).
  unfold put_plant. rewrite Hsel. simpl state.
  exists (updated_row rt a p p). split.
  - apply plant_by_id_update; [reflexivity | now apply plant_by_id_key].
  - simpl. unfold text_nullish.
    split; [reflexivity|]. split; [reflexivity|]. split; [reflexivity|].
    split; [reflexivity|].
    split; [destruct (species a); reflexivity|].
    split; [destruct (location a); reflexivity|].
    split; [destruct (notes a); reflexivity|].
    split.
    + intros [-> | ->]; destruct (p_water_interval_days p); reflexivity.
    + intros [-> | ->]; destruct (p_repot_interval_days p); reflexivity.
Qed.

(** The species of the fern is set; the rest of the fern stays. *)
Lemma update_merges_witness :
  let a := mkAttrs None (Some "Nephrolepis") None JUndefined JNull None in
  (keys_ok garden /\ select_plant garden (Num 1) 1 = Some the_fern) /\
  exists q,
    plant_by_id (state (put_plant utc_runtime garden (mkIdentity 1 "a@x.test")
                                  (Num 1) a)) 1 = Some q /\
    p_user_id q = Some 1 /\ p_last_watered q = None /\ p_last_repotted q = None /\
    p_name q = "Fern" /\ p_species q = Some "Nephrolepis" /\
    p_location q = None /\ p_notes q = None /\
    (JUndefined = JUndefined \/ JUndefined = JNull -> p_water_interval_days q = Some 7) /\
    (JNull = JUndefined \/ JNull = JNull -> p_repot_interval_days q = Some 365).
Proof.
  intros a. split; [split; [exact (proj1 garden_consistent) | reflexivity]|].
  exact (update_merges_what_is_not_given utc_runtime garden (mkIdentity 1 "a@x.test")
           (Num 1) a the_fern (proj1 garden_consistent) eq_refl).
Defined.

(* ===================================================================== *)
(** ** The date of an append, in full *)
(* ===================================================================== *)

Lemma is_digit_value (c : ascii) : is_digit c = true -> 0 <= digit_value c <= 9.
Proof.
  unfold is_digit, digit_value. intros H. apply andb_prop in H.
  destruct H as [H1 H2]. apply Z.leb_le in H1. apply Z.leb_le in H2. lia.
Qed.

Lemma date_only_shape (s : string) :
  anchored_match date_only_pattern s = true ->
  exists c0 c1 c2 c3 c5 c6 c8 c9,
    s = String c0 (String c1 (String c2 (String c3 (String "-"
          (String c5 (String c6 (String "-" (String c8 (String c9 ""))))))))) /\
    is_digit c0 = true /\ is_digit c1 = true /\ is_digit c2 = true /\
    is_digit c3 = true /\ is_digit c5 = true /\ is_digit c6 = true /\
    is_digit c8 = true /\ is_digit c9 = true.
Proof.
  unfold date_only_pattern.
  destruct s as [|c0 [|c1 [|c2 [|c3 [|c4 [|c5 [|c6 [|c7 [|c8 [|c9 [|c10 r]]]]]]]]]]];
    cbn [anchored_match atom_matches]; try discriminate;
    repeat rewrite andb_false_r; try discriminate.
  intros H.
  repeat (apply andb_prop in H; let H' := fresh "D" in destruct H as [H' H]).
  apply Ascii.eqb_eq in D3. apply Ascii.eqb_eq in D6. subst c4 c7.
  exists c0, c1, c2, c3, c5, c6, c8, c9. auto 12.
Qed.

Lemma DayFromYear_bounds (y : Z) :
  0 <= y <= 9999 -> -720000 <= DayFromYear y <= 2933000.
Proof.
  intros H. unfold DayFromYear.
  pose proof (Z.div_mod (y - 1969) 4 ltac:(lia)).
  pose proof (Z.mod_pos_bound (y - 1969) 4 ltac:(lia)).
  pose proof (Z.div_mod (y - 1901) 100 ltac:(lia)).
  pose proof (Z.mod_pos_bound (y - 1901) 100 ltac:(lia)).
  pose proof (Z.div_mod (y - 1601) 400 ltac:(lia)).
  pose proof (Z.mod_pos_bound (y - 1601) 400 ltac:(lia)).
  lia.
Qed.

Lemma month_start_bounds (m : Z) (leap : bool) : 0 <= month_start m leap <= 335.
Proof.
  unfold month_start. destruct leap;
    (destruct m as [|p|p]; [lia| |lia]);
    do 5 (try (destruct p; try lia)).
Qed.

Lemma calendar_date_parse (rt : runtime) (s : string) :
  anchored_match date_only_pattern s = true ->
  parse_date_time_local rt (s ++ "T00:00:00")%string
  = if (1 <=? spelt_month s) && (spelt_month s <=? 12)
       && (1 <=? spelt_day s) && (spelt_day s <=? 31)
    then let t := MakeDate (MakeDay (spelt_year s) (spelt_month s - 1) (spelt_day s)) 0 in
         TimeClip (t - LocalTZA rt t)
    else None.
Proof.
  intros Hre.
  destruct (date_only_shape s Hre)
    as (c0 & c1 & c2 & c3 & c5 & c6 & c8 & c9 & -> & D0 & D1 & D2 & D3 & D5 & D6 & D8 & D9).
  unfold parse_date_time_local.
  assert (Hm : anchored_match date_time_pattern
                 (String c0 (String c1 (String c2 (String c3 (String "-"
                    (String c5 (String c6 (String "-" (String c8 (String c9 "")))))))))
                  ++ "T00:00:00")%string = true).
  { unfold date_time_pattern, date_only_pattern.
    cbn [append anchored_match atom_matches app].
    rewrite D0, D1, D2, D3, D5, D6, D8, D9. reflexivity. }
  rewrite Hm. cbv zeta.
  set (S := (String c0 (String c1 (String c2 (String c3 (String "-"
               (String c5 (String c6 (String "-" (String c8 (String c9 "")))))))))
             ++ "T00:00:00")%string).
  assert (Hh : field S 11 2 = 0) by reflexivity.
  assert (Hmi : field S 14 2 = 0) by reflexivity.
  assert (Hs : field S 17 2 = 0) by reflexivity.
  rewrite Hh, Hmi, Hs.
  change ((0 <=? 23) || ((0 =? 24) && (0 =? 0) && (0 =? 0))) with true.
  change (0 <=? 59) with true. change (MakeTime 0 0 0) with 0.
  rewrite !andb_true_r. reflexivity.
Qed.

Lemma calendar_date_in_range (rt : runtime) (s : string) :
  anchored_match date_only_pattern s = true ->
  (forall t, Z.abs (LocalTZA rt t) <= msPerDay) ->
  1 <= spelt_month s <= 12 -> 1 <= spelt_day s <= 31 ->
  let t := MakeDate (MakeDay (spelt_year s) (spelt_month s - 1) (spelt_day s)) 0 in
  TimeClip (t - LocalTZA rt t) = Some (t - LocalTZA rt t).
Proof.
  intros Hre Htz Hmon Hday t.
  assert (Hy : 0 <= spelt_year s <= 9999).
  { destruct (date_only_shape s Hre)
      as (c0 & c1 & c2 & c3 & c5 & c6 & c8 & c9 & -> & D0 & D1 & D2 & D3 & _).
    apply is_digit_value in D0, D1, D2, D3.
    unfold spelt_year, field. cbn [substring digits_value]. lia. }
  pose proof (DayFromYear_bounds _ Hy) as Hd.
  pose proof (month_start_bounds (spelt_month s - 1) (InLeapYear (spelt_year s))) as Hms.
  specialize (Htz t). unfold msPerDay in Htz.
  unfold TimeClip.
  replace (Z.abs (t - LocalTZA rt t) <=? 8640000000000000) with true; [reflexivity|].
  symmetry. apply Z.leb_le.
  assert (Ht : -70000000000000 <= t <= 260000000000000)
    by (unfold t, MakeDate, MakeDay, msPerDay; lia).
  clearbody t. lia.
Qed.

(** X23: a date of the shape YYYY-MM-DD resolves, whatever the clock, to
    midnight of that day in the server's time when its month is 01..12 and
    its day 01..31 (the server's offset from UTC being at most a day), and
    makes the append throw when month or day is outside these bounds. *)
Theorem calendar_date_resolves (rt : runtime) (t0 : Z) (s : string) :
  anchored_match date_only_pattern s = true ->
  (forall t, Z.abs (LocalTZA rt t) <= msPerDay) ->
  (1 <= spelt_month s <= 12 /\ 1 <= spelt_day s <= 31 ->
   let t := MakeDay (spelt_year s) (spelt_month s - 1) (spelt_day s) * msPerDay in
   normalizeDate rt t0 (Some s) = Normal (t - LocalTZA rt t)) /\
  (spelt_month s < 1 \/ 12 < spelt_month s \/ spelt_day s < 1 \/ 31 < spelt_day s ->
   normalizeDate rt t0 (Some s) = Throw RangeError).
Proof.
  intros Hre Htz.
  assert (Hne : string_is_empty s = false).
  { destruct s; [discriminate Hre | reflexivity]. }
  unfold normalizeDate. rewrite Hne, Hre, (calendar_date_parse rt s Hre).
  split.
  - intros [Hmon Hday].
    replace ((1 <=? spelt_month s) && (spelt_month s <=? 12)
             && (1 <=? spelt_day s) && (spelt_day s <=? 31)) with true
      by (symmetry; rewrite !andb_true_iff, !Z.leb_le; lia).
    cbv zeta. rewrite (calendar_date_in_range rt s Hre Htz Hmon Hday).
    unfold MakeDate. simpl toISOString. now rewrite !Z.add_0_r.
  - intros Hbad.
    replace ((1 <=? spelt_month s) && (spelt_month s <=? 12)
             && (1 <=? spelt_day s) && (spelt_day s <=? 31)) with false; [reflexivity|].
    symmetry. apply not_true_is_false. rewrite !andb_true_iff, !Z.leb_le. lia.
Qed.

Lemma calendar_date_resolves_witness :
  (anchored_match date_only_pattern "2024-02-29" = true /\
   (forall t, Z.abs (LocalTZA utc_runtime t) <= msPerDay) /\
   1 <= spelt_month "2024-02-29" <= 12 /\ 1 <= spelt_day "2024-02-29" <= 31) /\
  normalizeDate utc_runtime 4000 (Some "2024-02-29") = Normal 1709164800000.
Proof.
  assert (Htz : forall t, Z.abs (LocalTZA utc_runtime t) <= msPerDay)
    by (intros t; simpl; unfold msPerDay; lia).
  assert (Hm : 1 <= spelt_month "2024-02-29" <= 12) by (vm_compute; split; discriminate).
  assert (Hd : 1 <= spelt_day "2024-02-29" <= 31) by (vm_compute; split; discriminate).
  split; [auto|].
  exact (proj1 (calendar_date_resolves utc_runtime 4000 "2024-02-29" eq_refl Htz)
               (conj Hm Hd)).
Defined.

(** X24: [normalizeDate] throws on no other input than a string of the
    shape YYYY-MM-DD, and then a RangeError: without a date, with an empty
    one or with any other text it returns a timestamp, the clock's when
    the text does not parse. *)
Theorem normalizeDate_throws_only_on_calendar_shape (rt : runtime) (t0 : Z)
        (date : option string) :
  (forall ex, normalizeDate rt t0 date = Throw ex ->
              ex = RangeError /\
              exists s, date = Some s /\ anchored_match date_only_pattern s = true) /\
  (forall s, date = Some s -> anchored_match date_only_pattern s = false ->
             normalizeDate rt t0 date
             = Normal (match Date_parse rt s with
                       | Some t => if string_is_empty s then t0 else t
                       | None => t0
                       end)).
Proof.
  split.
  - intros ex. unfold normalizeDate.
    destruct date as [s|]; [|discriminate].
    destruct (string_is_empty s); [discriminate|].
    destruct (anchored_match date_only_pattern s) eqn:Hre.
    + unfold toISOString. destruct (parse_date_time_local rt _); [discriminate|].
      intros H. injection H as <-. split; [reflexivity|]. now exists s.
    + destruct (Date_parse rt s); discriminate.
  - intros s -> Hre. unfold normalizeDate. rewrite Hre.
    destruct (string_is_empty s); destruct (Date_parse rt s); reflexivity.
Qed.
